(** * GPS speedometer (src/app/page.tsx): speed pipeline and session state

    A shallow embedding of the two [GPSSpeedometer] components of
    [src/app/page.tsx]: the distance/speed computation, the estimator
    inside the [watchPosition] success handler, the recency-window
    smoother, the display values, and the tracking / camera / recording
    handlers.

    Numbers.  A JavaScript [number] is an IEEE-754 binary64 value.  The
    code is written once, over the interface [JSNumber] (the operators
    and the [Math] functions the program uses), and read at two
    instances: the kernel's binary64 floats, which is the arithmetic the
    program runs with, and the real numbers, which is the arithmetic its
    formulas are meant in.  ECMAScript fixes [+], [-], [*], [/],
    [Math.sqrt], [Math.max], [Math.min] and the comparisons bit for bit;
    [Math.sin], [Math.cos] and [Math.atan2] are implementation-approximated,
    so the binary64 instance takes them as a parameter ([MathLibrary]) and
    the properties hold for every library. *)

From Stdlib Require Import String Floats Reals RList Lra Lia Bool Arith ZArith List.
Import ListNotations.

#[local] Set Warnings "-inexact-float".

(** ** Arithmetic interface *)

Class Number (num : Type) : Type := {
  num_of_nat : nat -> num;
  num_add : num -> num -> num;
  num_mul : num -> num -> num;
  num_div : num -> num -> num
}.

#[export] Instance real_number : Number R := {
  num_of_nat := INR;
  num_add := Rplus;
  num_mul := Rmult;
  num_div := Rdiv
}.

#[export] Instance binary64_number : Number float := {
  num_of_nat := fun n => PrimFloat.of_uint63 (Uint63.of_Z (Z.of_nat n));
  num_add := PrimFloat.add;
  num_mul := PrimFloat.mul;
  num_div := PrimFloat.div
}.

(** ** SpeedSmoother: [smoothSpeed] (page.tsx lines 65-82) *)

Section Smoother.
Context {num : Type} `{Number num}.

(** [speedHistoryRef.current.push(newSpeed)] followed by the guarded
    [shift()]: the array is a list with the oldest sample first. *)
Definition push_window (history : list num) (newSpeed : num) : list num :=
  let pushed := history ++ [newSpeed] in
  if 5 <? length pushed then tl pushed else pushed.

(** The [forEach] callback, threaded over the array with its index; the
    accumulator is the pair [(weightedSum, totalWeight)]. *)
Fixpoint forEach_weights (l : list num) (index : nat) (acc : num * num)
  : num * num :=
  match l with
  | [] => acc
  | speed :: rest =>
      let weight := num_of_nat (index + 1) in
      forEach_weights rest (S index)
        (num_add (fst acc) (num_mul speed weight), num_add (snd acc) weight)
  end.

Definition weightedSum (window : list num) : num :=
  fst (forEach_weights window 0 (num_of_nat 0, num_of_nat 0)).

Definition totalWeight (window : list num) : num :=
  snd (forEach_weights window 0 (num_of_nat 0, num_of_nat 0)).

(** [smoothSpeed newSpeed]: the new content of [speedHistoryRef.current]
    and the returned value. *)
Definition smoothSpeed (history : list num) (newSpeed : num)
  : list num * num :=
  let window := push_window history newSpeed in
  (window, num_div (weightedSum window) (totalWeight window)).

(** A run of calls: the final window and the value each call returned. *)
Fixpoint pushAll (history : list num) (samples : list num)
  : list num * list num :=
  match samples with
  | [] => (history, [])
  | x :: rest =>
      let step := smoothSpeed history x in
      let later := pushAll (fst step) rest in
      (fst later, snd step :: snd later)
  end.

End Smoother.

(** ** JavaScript numbers *)

(** What the program uses of a [number] beyond the smoother's operations:
    decimal literals ([num_literal m e] is the literal [m]e[e], so
    [num_literal 2237 (-3)] is [2.237] and [num_literal 6371 3] is
    [6371e3]), subtraction, [===], [>=], and the members of [Math]. *)
Class JSNumber (num : Type) : Type := {
  js_arith :: Number num;
  num_literal : Z -> Z -> num;
  num_sub : num -> num -> num;
  num_eqb : num -> num -> bool;
  num_geb : num -> num -> bool;
  Math_PI : num;
  Math_sin : num -> num;
  Math_cos : num -> num;
  Math_sqrt : num -> num;
  Math_atan2 : num -> num -> num;
  Math_max : num -> num -> num;
  Math_min : num -> num -> num
}.

(** An integer literal. *)
Definition num_int {num : Type} `{JSNumber num} (n : Z) : num :=
  num_literal n 0.

Declare Scope js_scope.
Delimit Scope js_scope with js.
Infix "+" := num_add : js_scope.
Infix "-" := num_sub : js_scope.
Infix "*" := num_mul : js_scope.
Infix "/" := num_div : js_scope.
Infix "===" := num_eqb (at level 70, no associativity) : js_scope.
Infix ">=" := num_geb : js_scope.

(** *** Exact arithmetic: the real numbers *)

(** [x === y] and [x >= y] on reals, as booleans. *)
Definition Req_bool (x y : R) : bool := if Req_dec_T x y then true else false.
Definition Rge_bool (x y : R) : bool := if Rge_dec x y then true else false.

(** The two-argument arctangent: the angle of the point [(x, y)], in
    [(-PI, PI]]; it is [0] at the origin. *)
Definition Ratan2 (y x : R) : R :=
  if Rlt_dec 0 x then atan (y / x)
  else if Rlt_dec x 0 then
    (if Rle_dec 0 y then atan (y / x) + PI else atan (y / x) - PI)
  else if Rlt_dec 0 y then PI / 2
  else if Rlt_dec y 0 then - (PI / 2)
  else 0.

Definition real_literal (m e : Z) : R :=
  match e with
  | Z0 => IZR m
  | Zpos k => IZR (m * Z.pow_pos 10 k)
  | Zneg k => IZR m / IZR (Z.pow_pos 10 k)
  end.

#[export] Instance real_js : JSNumber R := {
  js_arith := real_number;
  num_literal := real_literal;
  num_sub := Rminus;
  num_eqb := Req_bool;
  num_geb := Rge_bool;
  Math_PI := PI;
  Math_sin := sin;
  Math_cos := cos;
  Math_sqrt := sqrt;
  Math_atan2 := Ratan2;
  Math_max := Rmax;
  Math_min := Rmin
}.

(** *** The program's arithmetic: binary64 *)

(** The binary64 value of an integer (exact below 2^53). *)
Definition float_of_Z (z : Z) : float :=
  match z with
  | Z0 => PrimFloat.zero
  | Zpos _ => PrimFloat.of_uint63 (Uint63.of_Z z)
  | Zneg p => PrimFloat.opp (PrimFloat.of_uint63 (Uint63.of_Z (Zpos p)))
  end.

(** The binary64 value of the literal [m]e[e].  With a negative exponent
    it is the correctly rounded quotient of two integers that binary64
    holds exactly, which is the value the literal denotes (for the
    literals of the program: mantissa and power of ten below 2^53). *)
Definition float_literal (m e : Z) : float :=
  match e with
  | Z0 => float_of_Z m
  | Zpos k => float_of_Z (m * Z.pow_pos 10 k)
  | Zneg k => PrimFloat.div (float_of_Z m) (float_of_Z (Z.pow_pos 10 k))
  end.

(** [Math.max(x, y)] and [Math.min(x, y)]: NaN if either argument is NaN;
    [+0] counts as larger than [-0]. *)
Definition Math_max64 (x y : float) : float :=
  if PrimFloat.is_nan x || PrimFloat.is_nan y then PrimFloat.nan
  else if PrimFloat.ltb x y then y
  else if PrimFloat.eqb x y then (if PrimFloat.get_sign x then y else x)
  else x.

Definition Math_min64 (x y : float) : float :=
  if PrimFloat.is_nan x || PrimFloat.is_nan y then PrimFloat.nan
  else if PrimFloat.ltb x y then x
  else if PrimFloat.eqb x y then (if PrimFloat.get_sign x then x else y)
  else y.

(** The implementation-approximated members of [Math] that the program
    calls.  ([Math.sqrt] is the IEEE square root.) *)
Record MathLibrary : Type := {
  lib_sin : float -> float;
  lib_cos : float -> float;
  lib_atan2 : float -> float -> float
}.


Definition binary64_js (m : MathLibrary) : JSNumber float := {|
  js_arith := binary64_number;
  num_literal := float_literal;
  num_sub := PrimFloat.sub;
  num_eqb := PrimFloat.eqb;
  num_geb := fun x y => PrimFloat.leb y x;
  Math_PI := 3.141592653589793%float;
  Math_sin := lib_sin m;
  Math_cos := lib_cos m;
  Math_sqrt := PrimFloat.sqrt;
  Math_atan2 := lib_atan2 m;
  Math_max := Math_max64;
  Math_min := Math_min64
|}.

(** ** CaptureController: [startCamera], [stopCamera], [startRecording],
    [stopRecording], [downloadVideo] (page.tsx lines 84-167) *)

Inductive TrackKind : Type := VideoTrack | AudioTrack.

Record MediaStreamTrack : Type := {
  track_id : nat;
  track_kind : TrackKind
}.

(** A [MediaStream] is read only through [getTracks()]. *)
Record MediaStream : Type := {
  getTracks : list MediaStreamTrack
}.

(** A [Blob] is read only through [size]. *)
Record Blob : Type := {
  size : nat
}.

(** A [MediaRecorder] with the [chunks] array its two callbacks close over.
    [stopQueued] is the task that [stop()] queues: it fires
    [dataavailable] with the data gathered so far and then [stop]. *)
Record MediaRecorder : Type := {
  recording : bool;
  stopQueued : bool;
  chunks : list Blob
}.

(** Calls into the platform, in the order they are made. *)
Inductive MediaCall : Type :=
| GetUserMedia
| TrackStop (track : MediaStreamTrack)
| RecorderStart (recorder : nat)
| RecorderStop (recorder : nat)
| DownloadFile (parts : list Blob).

(** The capture half of the component: React state, refs, the recorder
    objects created so far (a ref holds an index into [recorders]), the
    [getUserMedia] requests in flight, and the platform calls made. *)
Record Capture : Type := {
  isRecording : bool;
  isCameraActive : bool;
  recordedChunks : list Blob;
  cameraError : option string;
  mediaRecorderRef : option nat;
  streamRef : option MediaStream;
  recorders : list MediaRecorder;
  pendingMedia : nat;
  mediaCalls : list MediaCall
}.

Definition initialCapture : Capture := {|
  isRecording := false;
  isCameraActive := false;
  recordedChunks := [];
  cameraError := None;
  mediaRecorderRef := None;
  streamRef := None;
  recorders := [];
  pendingMedia := 0;
  mediaCalls := []
|}.

(** [canvasRef.current]: the canvas is rendered only in the camera view
    (lines 358-362), so the ref is set exactly when the camera is active. *)
Definition canvasRef (c : Capture) : bool := isCameraActive c.

Fixpoint update_nth {A : Type} (n : nat) (f : A -> A) (l : list A) : list A :=
  match l, n with
  | [], _ => []
  | x :: rest, O => f x :: rest
  | x :: rest, S m => x :: update_nth m f rest
  end.

(** Lines 84-95, up to the [await]: the request is made. *)
Definition startCamera (c : Capture) : Capture := {|
  isRecording := isRecording c;
  isCameraActive := isCameraActive c;
  recordedChunks := recordedChunks c;
  cameraError := None;
  mediaRecorderRef := mediaRecorderRef c;
  streamRef := streamRef c;
  recorders := recorders c;
  pendingMedia := S (pendingMedia c);
  mediaCalls := mediaCalls c ++ [GetUserMedia]
|}.

(** Lines 96-100: [getUserMedia] resolved with [stream]. *)
Definition startCamera_resolved (c : Capture) (stream : MediaStream)
  : Capture := {|
  isRecording := isRecording c;
  isCameraActive := true;
  recordedChunks := recordedChunks c;
  cameraError := cameraError c;
  mediaRecorderRef := mediaRecorderRef c;
  streamRef := Some stream;
  recorders := recorders c;
  pendingMedia := pred (pendingMedia c);
  mediaCalls := mediaCalls c
|}.

(** Lines 101-104: [getUserMedia] rejected. *)
Definition startCamera_rejected (c : Capture) : Capture := {|
  isRecording := isRecording c;
  isCameraActive := isCameraActive c;
  recordedChunks := recordedChunks c;
  cameraError := Some "Camera access denied or not available"%string;
  mediaRecorderRef := mediaRecorderRef c;
  streamRef := streamRef c;
  recorders := recorders c;
  pendingMedia := pred (pendingMedia c);
  mediaCalls := mediaCalls c
|}.

(** [mediaRecorder.stop()] *)
Definition recorder_stop (r : MediaRecorder) : MediaRecorder := {|
  recording := false;
  stopQueued := true;
  chunks := chunks r
|}.

(** Lines 147-152: [stopRecording]. *)
Definition stopRecording (c : Capture) : Capture :=
  match mediaRecorderRef c with
  | Some i =>
      if isRecording c then {|
        isRecording := false;
        isCameraActive := isCameraActive c;
        recordedChunks := recordedChunks c;
        cameraError := cameraError c;
        mediaRecorderRef := mediaRecorderRef c;
        streamRef := streamRef c;
        recorders := update_nth i recorder_stop (recorders c);
        pendingMedia := pendingMedia c;
        mediaCalls := mediaCalls c ++ [RecorderStop i]
      |} else c
  | None => c
  end.

(** Lines 107-116: [stopCamera].  The tracks are stopped and the ref
    cleared, the camera flag is lowered, and only then is [isRecording]
    looked at. *)
Definition stopCamera (c : Capture) : Capture :=
  let released := {|
    isRecording := isRecording c;
    isCameraActive := false;
    recordedChunks := recordedChunks c;
    cameraError := cameraError c;
    mediaRecorderRef := mediaRecorderRef c;
    streamRef := None;
    recorders := recorders c;
    pendingMedia := pendingMedia c;
    mediaCalls := match streamRef c with
                  | Some stream => mediaCalls c ++ map TrackStop (getTracks stream)
                  | None => mediaCalls c
                  end
  |} in
  if isRecording c then stopRecording released else released.

(** Lines 118-145: [startRecording]. *)
Definition startRecording (c : Capture) : Capture :=
  match streamRef c with
  | None => c
  | Some _ =>
      if negb (canvasRef c) then c
      else
        let mediaRecorder := {|
          recording := true;
          stopQueued := false;
          chunks := []
        |} in
        let i := length (recorders c) in
        {|
          isRecording := true;
          isCameraActive := isCameraActive c;
          recordedChunks := recordedChunks c;
          cameraError := cameraError c;
          mediaRecorderRef := Some i;
          streamRef := streamRef c;
          recorders := recorders c ++ [mediaRecorder];
          pendingMedia := pendingMedia c;
          mediaCalls := mediaCalls c ++ [RecorderStart i]
        |}
  end.

(** Lines 132-136: [ondataavailable]. *)
Definition ondataavailable (data : Blob) (r : MediaRecorder) : MediaRecorder := {|
  recording := recording r;
  stopQueued := stopQueued r;
  chunks := if 0 <? size data then chunks r ++ [data] else chunks r
|}.

(** The task queued by [stop()] on recorder [i]: [dataavailable] with the
    gathered [data], then [onstop] (lines 138-140). *)
Definition recorder_stop_task (c : Capture) (i : nat) (data : Blob)
  : Capture :=
  match nth_error (recorders c) i with
  | None => c
  | Some r =>
      let r' := ondataavailable data r in
      {|
        isRecording := isRecording c;
        isCameraActive := isCameraActive c;
        recordedChunks := chunks r';
        cameraError := cameraError c;
        mediaRecorderRef := mediaRecorderRef c;
        streamRef := streamRef c;
        recorders :=
          update_nth i
            (fun _ => {| recording := false; stopQueued := false;
                         chunks := chunks r' |})
            (recorders c);
        pendingMedia := pendingMedia c;
        mediaCalls := mediaCalls c
      |}
  end.

(** Lines 154-167: [downloadVideo]. *)
Definition downloadVideo (c : Capture) : Capture :=
  match recordedChunks c with
  | [] => c
  | _ :: _ => {|
      isRecording := isRecording c;
      isCameraActive := isCameraActive c;
      recordedChunks := [];
      cameraError := cameraError c;
      mediaRecorderRef := mediaRecorderRef c;
      streamRef := streamRef c;
      recorders := recorders c;
      pendingMedia := pendingMedia c;
      mediaCalls := mediaCalls c ++ [DownloadFile (recordedChunks c)]
    |}
  end.


(** ** The component, in any arithmetic *)

Section Component.
Context {num : Type} `{JSNumber num}.
Local Open Scope js_scope.

(** *** DistanceCalculator: [calculateSpeed] (page.tsx lines 46-63) *)

(** [interface Position] *)
Record Position : Type := {
  latitude : num;
  longitude : num;
  timestamp : num
}.

(** The constant [R] of the source. *)
Definition R_earth : num := num_literal 6371 3.

Definition calculateSpeed (pos1 pos2 : Position) : num :=
  let phi1 := (latitude pos1 * Math_PI) / num_int 180 in
  let phi2 := (latitude pos2 * Math_PI) / num_int 180 in
  let dphi := ((latitude pos2 - latitude pos1) * Math_PI) / num_int 180 in
  let dlambda :=
    ((longitude pos2 - longitude pos1) * Math_PI) / num_int 180 in
  let a := Math_sin (dphi / num_int 2) * Math_sin (dphi / num_int 2)
           + Math_cos phi1 * Math_cos phi2 * Math_sin (dlambda / num_int 2)
             * Math_sin (dlambda / num_int 2) in
  let c := num_int 2 * Math_atan2 (Math_sqrt a) (Math_sqrt (num_int 1 - a)) in
  let distance := R_earth * c in
  let timeDiff := (timestamp pos2 - timestamp pos1) / num_int 1000 in
  if timeDiff === num_int 0 then num_int 0
  else
    let speedMps := distance / timeDiff in
    speedMps * num_literal 2237 (-3).

(** The values of the locals [a] and [timeDiff] of [calculateSpeed]. *)
Definition haversine_a (pos1 pos2 : Position) : num :=
  let phi1 := (latitude pos1 * Math_PI) / num_int 180 in
  let phi2 := (latitude pos2 * Math_PI) / num_int 180 in
  let dphi := ((latitude pos2 - latitude pos1) * Math_PI) / num_int 180 in
  let dlambda :=
    ((longitude pos2 - longitude pos1) * Math_PI) / num_int 180 in
  Math_sin (dphi / num_int 2) * Math_sin (dphi / num_int 2)
  + Math_cos phi1 * Math_cos phi2 * Math_sin (dlambda / num_int 2)
    * Math_sin (dlambda / num_int 2).

Definition timeDiff (pos1 pos2 : Position) : num :=
  (timestamp pos2 - timestamp pos1) / num_int 1000.

(** *** TrackingSession: [startTracking], the two [watchPosition] callbacks,
    [stopTracking], [resetMaxSpeed] (page.tsx lines 253-336) *)

(** What the success callback reads of a [GeolocationPosition]. *)
Record GeolocationPosition : Type := {
  coords_latitude : num;
  coords_longitude : num;
  coords_accuracy : num;
  coords_heading : option num;
  coords_speed : option num;
  position_timestamp : num
}.

(** The tracking half of the component: its React state, its refs, and the
    platform's side of [navigator.geolocation] (whether it exists, the
    watches that are registered, the next watch id it hands out). *)
Record Tracking : Type := {
  speed : num;
  maxSpeed : num;
  isTracking : bool;
  error : option string;
  accuracy : option num;
  heading : option num;
  isConnected : bool;
  watchIdRef : option nat;
  lastPositionRef : option Position;
  speedHistoryRef : list num;
  geolocation : bool;
  watches : list nat;
  nextWatchId : nat
}.

(** [useState] / [useRef] initial values. *)
Definition initialTracking (supported : bool) : Tracking := {|
  speed := num_int 0;
  maxSpeed := num_int 0;
  isTracking := false;
  error := None;
  accuracy := None;
  heading := None;
  isConnected := false;
  watchIdRef := None;
  lastPositionRef := None;
  speedHistoryRef := [];
  geolocation := supported;
  watches := [];
  nextWatchId := 0
|}.

(** Lines 285-293: the raw speed of a fix, before [Math.max(0, _)]. *)
Definition currentSpeed (lastPosition : option Position)
  (position : GeolocationPosition) (currentPosition : Position) : num :=
  let derived :=
    match lastPosition with
    | Some pos1 => calculateSpeed pos1 currentPosition
    | None => num_int 0
    end in
  match coords_speed position with
  | Some s => if s >= num_int 0 then s * num_literal 2237 (-3) else derived
  | None => derived
  end.

(** Lines 279-283: the [currentPosition] object built from a fix. *)
Definition positionOf (position : GeolocationPosition) : Position := {|
  latitude := coords_latitude position;
  longitude := coords_longitude position;
  timestamp := position_timestamp position
|}.

(** Lines 271-302: the success callback of [watchPosition]. *)
Definition onPosition (t : Tracking) (position : GeolocationPosition)
  : Tracking :=
  let currentPosition := positionOf position in
  let raw := currentSpeed (lastPositionRef t) position currentPosition in
  let smoothed := smoothSpeed (speedHistoryRef t) (Math_max (num_int 0) raw) in
  let smoothedSpeed := snd smoothed in
  {|
    speed := smoothedSpeed;
    maxSpeed := Math_max (maxSpeed t) smoothedSpeed;
    isTracking := isTracking t;
    error := error t;
    accuracy := Some (coords_accuracy position);
    heading := match coords_heading position with
               | Some h => Some h
               | None => heading t
               end;
    isConnected := true;
    watchIdRef := watchIdRef t;
    lastPositionRef := Some currentPosition;
    speedHistoryRef := fst smoothed;
    geolocation := geolocation t;
    watches := watches t;
    nextWatchId := nextWatchId t
  |}.

(** [GeolocationPositionError] codes. *)
Definition PERMISSION_DENIED : nat := 1.
Definition POSITION_UNAVAILABLE : nat := 2.
Definition TIMEOUT : nat := 3.

(** Lines 305-318: the [switch] on [error.code]. *)
Definition errorMessage (code : nat) : string :=
  if Nat.eqb code PERMISSION_DENIED then
    "Location access denied. Please enable location permissions."%string
  else if Nat.eqb code POSITION_UNAVAILABLE then
    "Location information unavailable."%string
  else if Nat.eqb code TIMEOUT then
    "Location request timed out."%string
  else
    "An unknown error occurred."%string.

(** Lines 303-319: the error callback of [watchPosition]. *)
Definition onPositionError (t : Tracking) (code : nat) : Tracking := {|
  speed := speed t;
  maxSpeed := maxSpeed t;
  isTracking := isTracking t;
  error := Some (errorMessage code);
  accuracy := accuracy t;
  heading := heading t;
  isConnected := false;
  watchIdRef := watchIdRef t;
  lastPositionRef := lastPositionRef t;
  speedHistoryRef := speedHistoryRef t;
  geolocation := geolocation t;
  watches := watches t;
  nextWatchId := nextWatchId t
|}.

(** Lines 253-322: [startTracking].  [watchPosition] registers a watch and
    returns its id. *)
Definition startTracking (t : Tracking) : Tracking :=
  if negb (geolocation t) then {|
    speed := speed t;
    maxSpeed := maxSpeed t;
    isTracking := isTracking t;
    error := Some "Geolocation is not supported by this browser"%string;
    accuracy := accuracy t;
    heading := heading t;
    isConnected := isConnected t;
    watchIdRef := watchIdRef t;
    lastPositionRef := lastPositionRef t;
    speedHistoryRef := speedHistoryRef t;
    geolocation := geolocation t;
    watches := watches t;
    nextWatchId := nextWatchId t
  |} else {|
    speed := speed t;
    maxSpeed := maxSpeed t;
    isTracking := true;
    error := None;
    accuracy := accuracy t;
    heading := heading t;
    isConnected := isConnected t;
    watchIdRef := Some (nextWatchId t);
    lastPositionRef := None;
    speedHistoryRef := [];
    geolocation := geolocation t;
    watches := nextWatchId t :: watches t;
    nextWatchId := S (nextWatchId t)
  |}.

(** [navigator.geolocation.clearWatch(id)] *)
Definition clearWatch (id : nat) (ws : list nat) : list nat :=
  filter (fun w => negb (Nat.eqb w id)) ws.

(** Lines 324-332: [stopTracking]. *)
Definition stopTracking (t : Tracking) : Tracking := {|
  speed := num_int 0;
  maxSpeed := maxSpeed t;
  isTracking := false;
  error := error t;
  accuracy := accuracy t;
  heading := heading t;
  isConnected := false;
  watchIdRef := None;
  lastPositionRef := lastPositionRef t;
  speedHistoryRef := speedHistoryRef t;
  geolocation := geolocation t;
  watches := match watchIdRef t with
             | Some id => clearWatch id (watches t)
             | None => watches t
             end;
  nextWatchId := nextWatchId t
|}.

(** Lines 334-336: [resetMaxSpeed]. *)
Definition resetMaxSpeed (t : Tracking) : Tracking := {|
  speed := speed t;
  maxSpeed := num_int 0;
  isTracking := isTracking t;
  error := error t;
  accuracy := accuracy t;
  heading := heading t;
  isConnected := isConnected t;
  watchIdRef := watchIdRef t;
  lastPositionRef := lastPositionRef t;
  speedHistoryRef := speedHistoryRef t;
  geolocation := geolocation t;
  watches := watches t;
  nextWatchId := nextWatchId t
|}.

(** A run of fixes delivered to the success callback, in order. *)
Definition onPositions (t : Tracking) (fixes : list GeolocationPosition)
  : Tracking :=
  fold_left onPosition fixes t.
(** *** The component: state, controls and events *)

Inductive Unit : Type := mph | kmh.

Record State : Type := {
  tracking : Tracking;
  capture : Capture;
  displayUnit : Unit
}.

Definition initialState (supported : bool) : State := {|
  tracking := initialTracking supported;
  capture := initialCapture;
  displayUnit := mph
|}.

(** Lines 338-340: [toggleUnit]. *)
Definition toggleUnit (u : Unit) : Unit :=
  match u with
  | mph => kmh
  | kmh => mph
  end.

(** What can happen to the component: a click on one of its controls, a
    callback of a geolocation watch, the outcome of a [getUserMedia]
    request, the stop task of a recorder. *)
Inductive Event : Type :=
| ClickStartTracking
| ClickStopTracking
| ClickToggleUnit
| ClickResetMaxSpeed
| ClickStartCamera
| ClickStopCamera
| ClickStartRecording
| ClickStopRecording
| ClickDownload
| WatchPosition (id : nat) (position : GeolocationPosition)
| WatchError (id : nat) (code : nat)
| MediaGranted (stream : MediaStream)
| MediaDenied
| RecorderStopped (recorder : nat) (data : Blob).

(** Which events the component can receive in a state.  A control takes a
    click when it is rendered and not [disabled]: the camera view (lines
    358-420) replaces the main view (lines 422-613) while
    [isCameraActive]; a watch calls back while it is registered. *)
Definition enabled (s : State) (e : Event) : bool :=
  let t := tracking s in
  let c := capture s in
  match e with
  | ClickStartTracking => negb (isCameraActive c) && negb (isTracking t)
  | ClickStopTracking => negb (isCameraActive c) && isTracking t
  | ClickToggleUnit => negb (isCameraActive c)
  | ClickResetMaxSpeed =>
      negb (isCameraActive c) && negb (maxSpeed t === num_int 0)
  | ClickStartCamera => negb (isCameraActive c) && isTracking t
  | ClickStopCamera => isCameraActive c
  | ClickStartRecording =>
      isCameraActive c && negb (isRecording c) && isTracking t
  | ClickStopRecording => isCameraActive c && isRecording c
  | ClickDownload =>
      isCameraActive c
      && match recordedChunks c with [] => false | _ :: _ => true end
  | WatchPosition id _ => existsb (Nat.eqb id) (watches t)
  | WatchError id _ => existsb (Nat.eqb id) (watches t)
  | MediaGranted _ => 0 <? pendingMedia c
  | MediaDenied => 0 <? pendingMedia c
  | RecorderStopped i _ =>
      match nth_error (recorders c) i with
      | Some r => stopQueued r
      | None => false
      end
  end.

Definition with_tracking (s : State) (t : Tracking) : State :=
  {| tracking := t; capture := capture s; displayUnit := displayUnit s |}.

Definition with_capture (s : State) (c : Capture) : State :=
  {| tracking := tracking s; capture := c; displayUnit := displayUnit s |}.

(** The handler each event runs. *)
Definition handle (s : State) (e : Event) : State :=
  match e with
  | ClickStartTracking => with_tracking s (startTracking (tracking s))
  | ClickStopTracking => with_tracking s (stopTracking (tracking s))
  | ClickToggleUnit =>
      {| tracking := tracking s; capture := capture s;
         displayUnit := toggleUnit (displayUnit s) |}
  | ClickResetMaxSpeed => with_tracking s (resetMaxSpeed (tracking s))
  | ClickStartCamera => with_capture s (startCamera (capture s))
  | ClickStopCamera => with_capture s (stopCamera (capture s))
  | ClickStartRecording => with_capture s (startRecording (capture s))
  | ClickStopRecording => with_capture s (stopRecording (capture s))
  | ClickDownload => with_capture s (downloadVideo (capture s))
  | WatchPosition _ position =>
      with_tracking s (onPosition (tracking s) position)
  | WatchError _ code => with_tracking s (onPositionError (tracking s) code)
  | MediaGranted stream =>
      with_capture s (startCamera_resolved (capture s) stream)
  | MediaDenied => with_capture s (startCamera_rejected (capture s))
  | RecorderStopped i data =>
      with_capture s (recorder_stop_task (capture s) i data)
  end.

(** One step of the component: an event it cannot receive changes nothing. *)
Definition step (s : State) (e : Event) : State :=
  if enabled s e then handle s e else s.

Definition run (s : State) (events : list Event) : State :=
  fold_left step events s.

(** The states the component can be in. *)
Inductive reachable : State -> Prop :=
| reachable_initial (supported : bool) : reachable (initialState supported)
| reachable_step (s : State) (e : Event) :
    reachable s -> reachable (step s e).

(** *** Display values and the dial (page.tsx lines 342-345, 446-448, 491, 525) *)

(** Lines 342-343: [displaySpeed] and [displayMaxSpeed] apply the same
    conversion to [speed] and to [maxSpeed]. *)
Definition displaySpeed (u : Unit) (mphValue : num) : num :=
  match u with
  | mph => mphValue
  | kmh => mphValue * num_literal 1609344 (-6)
  end.

Definition maxDisplaySpeed : num := num_int 200.

(** Line 345. *)
Definition speedPercentage (u : Unit) (mphValue : num) : num :=
  Math_min ((displaySpeed u mphValue / maxDisplaySpeed) * num_int 100)
           (num_int 100).

(** Lines 446-448: the 21 speed markers, [i] from 0 to 20. *)
Definition markerAngle (i : nat) : num :=
  num_of_nat i * num_int 18 - num_int 90.
Definition isMainMark (i : nat) : bool := Nat.eqb (i mod 5) 0.
Definition markerSpeed (i : nat) : num := num_of_nat i * num_int 10.
Definition markerIndices : list nat := seq 0 21.

(** Line 525: the needle's [rotate(...deg)]. *)
Definition needleRotation (percentage : num) : num :=
  (percentage / num_int 100) * num_int 180 - num_int 90.

(** Line 491: the two numbers of [strokeDasharray]. *)
Definition strokeDasharray (percentage : num) : num * num :=
  (percentage * num_literal 2827 (-3), num_literal 2827 (-1)).

(** *** The cleanup on unmount (page.tsx lines 347-356) *)

(** The watch named by [watchIdRef] is cleared and the tracks of the
    stream in [streamRef] are stopped; neither ref is reset and the
    recorder is not touched. *)
Definition unmount (s : State) : State := {|
  tracking := {|
    speed := speed (tracking s);
    maxSpeed := maxSpeed (tracking s);
    isTracking := isTracking (tracking s);
    error := error (tracking s);
    accuracy := accuracy (tracking s);
    heading := heading (tracking s);
    isConnected := isConnected (tracking s);
    watchIdRef := watchIdRef (tracking s);
    lastPositionRef := lastPositionRef (tracking s);
    speedHistoryRef := speedHistoryRef (tracking s);
    geolocation := geolocation (tracking s);
    watches := match watchIdRef (tracking s) with
               | Some id => clearWatch id (watches (tracking s))
               | None => watches (tracking s)
               end;
    nextWatchId := nextWatchId (tracking s)
  |};
  capture := {|
    isRecording := isRecording (capture s);
    isCameraActive := isCameraActive (capture s);
    recordedChunks := recordedChunks (capture s);
    cameraError := cameraError (capture s);
    mediaRecorderRef := mediaRecorderRef (capture s);
    streamRef := streamRef (capture s);
    recorders := recorders (capture s);
    pendingMedia := pendingMedia (capture s);
    mediaCalls := match streamRef (capture s) with
                  | Some stream =>
                      mediaCalls (capture s) ++ map TrackStop (getTracks stream)
                  | None => mediaCalls (capture s)
                  end
  |};
  displayUnit := displayUnit s
|}.

(** Lines 587-591: the error card shows [error || cameraError]. *)
Definition displayedError (s : State) : option string :=
  match error (tracking s) with
  | Some message =>
      if String.eqb message "" then cameraError (capture s) else Some message
  | None => cameraError (capture s)
  end.

(** *** The second component (page.tsx lines 638-970)

    The second [GPSSpeedometer] of the file has the tracking half only:
    its [calculateSpeed], [smoothSpeed], [startTracking], the two watch
    callbacks, [stopTracking], [resetMaxSpeed] and [toggleUnit] (lines
    652-777) are, line for line, those of the first component, so the same
    definitions embed them.  It has no camera view, and its cleanup only
    clears the watch. *)
Record State2 : Type := {
  tracking2 : Tracking;
  displayUnit2 : Unit
}.

Definition initialState2 (supported : bool) : State2 := {|
  tracking2 := initialTracking supported;
  displayUnit2 := mph
|}.

Inductive Event2 : Type :=
| ClickStartTracking2
| ClickStopTracking2
| ClickToggleUnit2
| ClickResetMaxSpeed2
| WatchPosition2 (id : nat) (position : GeolocationPosition)
| WatchError2 (id : nat) (code : nat).

(** Lines 921-940: the controls of the second component. *)
Definition enabled2 (s : State2) (e : Event2) : bool :=
  let t := tracking2 s in
  match e with
  | ClickStartTracking2 => negb (isTracking t)
  | ClickStopTracking2 => isTracking t
  | ClickToggleUnit2 => true
  | ClickResetMaxSpeed2 => negb (maxSpeed t === num_int 0)
  | WatchPosition2 id _ => existsb (Nat.eqb id) (watches t)
  | WatchError2 id _ => existsb (Nat.eqb id) (watches t)
  end.

Definition handle2 (s : State2) (e : Event2) : State2 :=
  match e with
  | ClickStartTracking2 =>
      {| tracking2 := startTracking (tracking2 s);
         displayUnit2 := displayUnit2 s |}
  | ClickStopTracking2 =>
      {| tracking2 := stopTracking (tracking2 s);
         displayUnit2 := displayUnit2 s |}
  | ClickToggleUnit2 =>
      {| tracking2 := tracking2 s;
         displayUnit2 := toggleUnit (displayUnit2 s) |}
  | ClickResetMaxSpeed2 =>
      {| tracking2 := resetMaxSpeed (tracking2 s);
         displayUnit2 := displayUnit2 s |}
  | WatchPosition2 _ position =>
      {| tracking2 := onPosition (tracking2 s) position;
         displayUnit2 := displayUnit2 s |}
  | WatchError2 _ code =>
      {| tracking2 := onPositionError (tracking2 s) code;
         displayUnit2 := displayUnit2 s |}
  end.

Definition step2 (s : State2) (e : Event2) : State2 :=
  if enabled2 s e then handle2 s e else s.

Definition run2 (s : State2) (events : list Event2) : State2 :=
  fold_left step2 events s.

(** The same click or callback, delivered to the first component. *)
Definition eventOf (e : Event2) : Event :=
  match e with
  | ClickStartTracking2 => ClickStartTracking
  | ClickStopTracking2 => ClickStopTracking
  | ClickToggleUnit2 => ClickToggleUnit
  | ClickResetMaxSpeed2 => ClickResetMaxSpeed
  | WatchPosition2 id position => WatchPosition id position
  | WatchError2 id code => WatchError id code
  end.




(** *** Invariants of the component *)

(** While the component is idle nothing is subscribed, the speed shown is 0
    and the connection flag is down; the registered watches are exactly
    the one [watchIdRef] names. *)
Definition idle_consistent (t : Tracking) : Prop :=
  watches t = match watchIdRef t with Some id => [id] | None => [] end
  /\ (isTracking t = false ->
      watchIdRef t = None /\ speed t = num_int 0 /\ isConnected t = false).

(** The messages [setError] is called with. *)
Definition trackingMessages : list string :=
  [ "Geolocation is not supported by this browser";
    "Location access denied. Please enable location permissions.";
    "Location information unavailable.";
    "Location request timed out.";
    "An unknown error occurred." ]%string.

(** What holds of the tracking half in every state the component reaches. *)
Definition session_consistent (t : Tracking) : Prop :=
  (isConnected t = true -> isTracking t = true)
  /\ (isTracking t = true ->
      geolocation t = true /\ exists id, watchIdRef t = Some id)
  /\ (forall id, In id (watches t) -> (id < nextWatchId t)%nat)
  /\ (lastPositionRef t = None <-> speedHistoryRef t = [])
  /\ (forall message, error t = Some message -> In message trackingMessages).

(** Lines 784-790: the cleanup of the second component. *)
Definition unmount2 (s : State2) : State2 := {|
  tracking2 := {|
    speed := speed (tracking2 s);
    maxSpeed := maxSpeed (tracking2 s);
    isTracking := isTracking (tracking2 s);
    error := error (tracking2 s);
    accuracy := accuracy (tracking2 s);
    heading := heading (tracking2 s);
    isConnected := isConnected (tracking2 s);
    watchIdRef := watchIdRef (tracking2 s);
    lastPositionRef := lastPositionRef (tracking2 s);
    speedHistoryRef := speedHistoryRef (tracking2 s);
    geolocation := geolocation (tracking2 s);
    watches := match watchIdRef (tracking2 s) with
               | Some id => clearWatch id (watches (tracking2 s))
               | None => watches (tracking2 s)
               end;
    nextWatchId := nextWatchId (tracking2 s)
  |};
  displayUnit2 := displayUnit2 s
|}.

End Component.

Arguments Position : clear implicits.
Arguments GeolocationPosition : clear implicits.
Arguments Tracking : clear implicits.
Arguments State : clear implicits.
Arguments Event : clear implicits.
Arguments State2 : clear implicits.
Arguments Event2 : clear implicits.


Open Scope R_scope.

(** ** OverlayRenderer: [drawSpeedometerOverlay] (page.tsx lines 169-230) *)

(** The text handed to [fillText]: a number printed with [toFixed], or a
    string. *)
Inductive CanvasText : Type :=
| NumberToFixed (x : R) (digits : nat)
| Text (s : string).

(** The calls and assignments made on the canvas and its 2d context, in
    the order they are made.  A font is kept as its parts: weight, size in
    px, family. *)
Inductive CanvasCall : Type :=
| SetCanvasWidth (w : R)
| SetCanvasHeight (h : R)
| DrawImage (x y w h : R)
| SetFillStyle (style : string)
| FillRect (x y w h : R)
| SetStrokeStyle (style : string)
| SetLineWidth (w : R)
| BeginPath
| Arc (x y radius startAngle endAngle : R)
| Stroke
| SetFont (bold : bool) (px : R) (family : string)
| SetTextAlign (align : string)
| FillText (text : CanvasText) (x y : R).

(** What the overlay reads: the two element refs, whether the canvas gives
    a 2d context, the video's intrinsic size, and the component's state. *)
Record OverlayInput : Type := {
  canvasMounted : bool;
  videoMounted : bool;
  contextAvailable : bool;
  videoWidth : nat;
  videoHeight : nat;
  overlayUnit : Unit;
  overlaySpeed : R;
  overlayConnected : bool
}.

(** [n || d] for a non-negative integer [n]. *)
Definition orDefault (n : nat) (d : R) : R :=
  if Nat.eqb n 0 then d else INR n.

Definition unitLabel (u : Unit) : string :=
  match u with
  | mph => "MPH"
  | kmh => "KMH"
  end.

(** Lines 178-197: the geometry of the dial. *)
Definition canvasWidth (i : OverlayInput) : R := orDefault (videoWidth i) 1920.
Definition canvasHeight (i : OverlayInput) : R := orDefault (videoHeight i) 1080.
Definition overlaySize (i : OverlayInput) : R :=
  Rmin (canvasWidth i) (canvasHeight i) * 0.25.
Definition overlayX (i : OverlayInput) : R :=
  canvasWidth i - overlaySize i - 20.
Definition overlayY : R := 20.
Definition centerX (i : OverlayInput) : R := overlayX i + overlaySize i / 2.
Definition centerY (i : OverlayInput) : R := overlayY + overlaySize i / 2.
Definition dialRadius (i : OverlayInput) : R := overlaySize i / 2 - 20.

(** Lines 207-209: the sweep of the speed arc. *)
Definition arcAngle (i : OverlayInput) : R :=
  let displayed := displaySpeed (overlayUnit i) (overlaySpeed i) in
  let percentage := Rmin ((displayed / 200) * 100) 100 in
  (percentage / 100) * 2 * PI.

(** The calls of the body in order, each taken to return.  (The two radii
    handed to [arc] are [dialRadius] and [dialRadius - 10]; the properties
    below say for which canvas sizes they are non-negative.) *)
Definition drawSpeedometerOverlay (i : OverlayInput) : list CanvasCall :=
  if negb (canvasMounted i) || negb (videoMounted i) then []
  else if negb (contextAvailable i) then []
  else
    [ SetCanvasWidth (canvasWidth i);
      SetCanvasHeight (canvasHeight i);
      DrawImage 0 0 (canvasWidth i) (canvasHeight i);
      SetFillStyle "rgba(0, 0, 0, 0.7)";
      FillRect (overlayX i - 10) (overlayY - 10)
               (overlaySize i + 20) (overlaySize i + 20);
      SetStrokeStyle "#8b5cf6";
      SetLineWidth 3;
      BeginPath;
      Arc (centerX i) (centerY i) (dialRadius i) 0 (2 * PI);
      Stroke;
      SetStrokeStyle "#ec4899";
      SetLineWidth 6;
      BeginPath;
      Arc (centerX i) (centerY i) (dialRadius i - 10)
          (- PI / 2) (- PI / 2 + arcAngle i);
      Stroke;
      SetFillStyle "white";
      SetFont true (overlaySize i * 0.15) "monospace";
      SetTextAlign "center";
      FillText (NumberToFixed
                  (displaySpeed (overlayUnit i) (overlaySpeed i)) 1)
               (centerX i) (centerY i - 10);
      SetFont false (overlaySize i * 0.08) "sans-serif";
      FillText (Text (unitLabel (overlayUnit i))) (centerX i) (centerY i + 20);
      SetFont false (overlaySize i * 0.06) "sans-serif";
      SetFillStyle (if overlayConnected i then "#10b981" else "#ef4444");
      FillText (Text (if overlayConnected i then "GPS Connected"
                      else "GPS Disconnected"))
               (centerX i) (centerY i + 40) ]%string.

(** ** Invariants of the capture half *)

(** While [isRecording] holds, the camera view is up, a stream is held,
    and [mediaRecorderRef] names a recorder that is recording and has no
    stop task queued. *)
Definition recording_consistent (c : Capture) : Prop :=
  isRecording c = true ->
  isCameraActive c = true
  /\ (exists stream, streamRef c = Some stream)
  /\ (exists i r, mediaRecorderRef c = Some i
                  /\ nth_error (recorders c) i = Some r
                  /\ recording r = true
                  /\ stopQueued r = false).


(** The camera view is up exactly while a stream is held, and a ref to a
    recorder names one that exists. *)
Definition camera_consistent (c : Capture) : Prop :=
  (isCameraActive c = true <-> streamRef c <> None)
  /\ (forall i, mediaRecorderRef c = Some i -> (i < length (recorders c))%nat)
  /\ (forall message, cameraError c = Some message ->
        message = "Camera access denied or not available"%string).

(** The chunks a finished recorder hands over. *)
Definition finalChunks (data : Blob) : list Blob :=
  if (0 <? size data)%nat then [data] else [].

(** ** The spec's formulas, for comparison with the code *)

Definition Rsum (l : list R) : R := fold_right Rplus 0 l.

(** Section 4.3: the i-th entry (0-indexed, oldest = 0) has weight i+1;
    result = sum of sample_i * weight_i over sum of weight_i. *)
Definition spec_weighted_average (window : list R) : R :=
  Rsum (map (fun i => nth i window 0 * INR (i + 1)) (seq 0 (length window)))
  / Rsum (map (fun i => INR (i + 1)) (seq 0 (length window))).

(** Section 4.1: the haversine formula with mean Earth radius 6,371,000 m. *)
Definition radians (degrees : R) : R := degrees * PI / 180.

Definition spec_a_hav (a b : Position R) : R :=
  let phi1 := radians (latitude a) in
  let phi2 := radians (latitude b) in
  let dphi := phi2 - phi1 in
  let dlambda := radians (longitude b) - radians (longitude a) in
  (sin (dphi / 2))² + cos phi1 * cos phi2 * (sin (dlambda / 2))².

Definition spec_distance (a b : Position R) : R :=
  6371000 * (2 * Ratan2 (sqrt (spec_a_hav a b))
                            (sqrt (1 - spec_a_hav a b))).


(** ** Binary64 predicates and example data used by the properties *)

(** Non-negative values of the binary64 specification: a zero of either
    sign, a positive finite number, or plus infinity. *)
Definition sf_nonneg (x : spec_float) : Prop :=
  match x with
  | S754_zero _ => True
  | S754_infinity s => s = false
  | S754_nan => False
  | S754_finite s _ _ => s = false
  end.

(** A positive finite value. *)
Definition sf_positive_finite (x : spec_float) : Prop :=
  match x with
  | S754_finite s _ _ => s = false
  | _ => False
  end.

(** Never negative: NaN, a zero of either sign, a positive number or plus
    infinity.  On floats this is the test [(x <? 0) = false]. *)
Definition sf_not_negative (x : spec_float) : Prop :=
  match x with
  | S754_infinity s | S754_finite s _ _ => s = false
  | _ => True
  end.



(** In binary64 the speed, the maximum and the samples of the window are
    never negative: each is NaN or at least 0. *)
Definition never_negative64 (t : Tracking float) : Prop :=
  PrimFloat.ltb (speed t) 0%float = false
  /\ PrimFloat.ltb (maxSpeed t) 0%float = false
  /\ (forall x, In x (speedHistoryRef t) -> PrimFloat.ltb x 0%float = false).

(** A fix that reports 10 m/s, used in the examples below. *)
Definition fix_10mps : GeolocationPosition R := {|
  coords_latitude := 0;
  coords_longitude := 0;
  coords_accuracy := 5;
  coords_heading := None;
  coords_speed := Some 10;
  position_timestamp := 1000
|}.

(** A camera stream with one video and one audio track. *)
Definition camera_stream : MediaStream := {|
  getTracks := [ {| track_id := 0; track_kind := VideoTrack |};
                 {| track_id := 1; track_kind := AudioTrack |} ]
|}.

(** Section 8's scenario: fixes at (0, 0) at t = 0 and (0, 0.001 degrees)
    at t = 1000 ms. *)
Definition equator_fix_a : Position R :=
  {| latitude := 0; longitude := 0; timestamp := 0 |}.
Definition equator_fix_b : Position R :=
  {| latitude := 0; longitude := 0.001; timestamp := 1000 |}.

(** An excerpt of an engine's [Math]: the values that [Math.sin],
    [Math.cos] and [Math.atan2] return at the arguments the binary64
    examples below reach (8 degrees is 0.13962634015954636 rad, 90
    degrees 1.5707963267948966 rad; the values are the correctly rounded
    ones, which V8 returns).  An argument outside the excerpt gives NaN. *)
Definition excerpt_sin (x : float) : float :=
  if PrimFloat.eqb x 0%float then x
  else if PrimFloat.eqb x 1.5707963267948966%float then 1%float
  else if PrimFloat.eqb x 0.13962634015954636%float
       then 0.13917310096006544%float
  else if PrimFloat.eqb x (-0.13962634015954636)%float
       then (-0.13917310096006544)%float
  else PrimFloat.nan.

Definition excerpt_cos (x : float) : float :=
  if PrimFloat.eqb x 0%float then 1%float
  else if PrimFloat.eqb (PrimFloat.abs x) 0.13962634015954636%float
       then 0.9902680687415704%float
  else PrimFloat.nan.

Definition excerpt_atan2 (y x : float) : float :=
  if PrimFloat.is_nan y || PrimFloat.is_nan x then PrimFloat.nan
  else if PrimFloat.eqb y 0%float && PrimFloat.eqb x 1%float then y
  else PrimFloat.nan.

Definition Math_excerpt : MathLibrary := {|
  lib_sin := excerpt_sin;
  lib_cos := excerpt_cos;
  lib_atan2 := excerpt_atan2
|}.

Definition excerpt_js : JSNumber float := binary64_js Math_excerpt.


(** The same places as fixes that report no speed, and a fix at the first
    place that reports 10 m/s. *)
Definition antipode_fix_a : GeolocationPosition float := {|
  coords_latitude := 8%float;
  coords_longitude := 0%float;
  coords_accuracy := 5%float;
  coords_heading := None;
  coords_speed := None;
  position_timestamp := 0%float
|}.

Definition antipode_fix_b : GeolocationPosition float := {|
  coords_latitude := (-8)%float;
  coords_longitude := 180%float;
  coords_accuracy := 5%float;
  coords_heading := None;
  coords_speed := None;
  position_timestamp := 1000%float
|}.

Definition antipode_fix_10mps : GeolocationPosition float := {|
  coords_latitude := 8%float;
  coords_longitude := 0%float;
  coords_accuracy := 5%float;
  coords_heading := None;
  coords_speed := Some 10%float;
  position_timestamp := 0%float
|}.

(** * Properties *)

(** ** The recency window, in any arithmetic *)

Section WindowFacts.
Context {num : Type} `{Number num}.

Lemma push_window_spec (history : list num) (x : num) :
  (length history <= 5)%nat ->
  push_window history x
  = skipn (length (history ++ [x]) - 5) (history ++ [x]).
Proof.
  intros Hlen. unfold push_window.
  rewrite length_app. simpl length.
  destruct (Nat.ltb_spec 5 (length history + 1)) as [Hgt | Hle].
  - replace (length history + 1 - 5)%nat with 1%nat by lia.
    destruct (history ++ [x]); reflexivity.
  - replace (length history + 1 - 5)%nat with 0%nat by lia. reflexivity.
Qed.

Lemma push_window_length (history : list num) (x : num) :
  (length history <= 5)%nat ->
  length (push_window history x) = Nat.min 5 (length history + 1).
Proof.
  intros Hlen. rewrite push_window_spec by assumption.
  rewrite length_skipn, !length_app. simpl length. lia.
Qed.

Lemma push_window_nonempty (history : list num) (x : num) :
  push_window history x <> [].
Proof.
  intros Hnil. apply (f_equal (@length num)) in Hnil.
  unfold push_window in Hnil.
  destruct (Nat.ltb_spec 5 (length (history ++ [x]))) as [Hgt | Hle];
    destruct history; simpl in *; rewrite ?length_app in *; simpl in *; lia.
Qed.

Lemma skipn_last5_app (l rest : list num) :
  skipn (length (skipn (length l - 5) l ++ rest) - 5)
        (skipn (length l - 5) l ++ rest)
  = skipn (length (l ++ rest) - 5) (l ++ rest).
Proof.
  rewrite !length_app, length_skipn.
  destruct (Nat.le_gt_cases (length l) 5) as [Hs | Hb].
  - replace (length l - 5)%nat with 0%nat by lia. simpl skipn.
    f_equal. lia.
  - rewrite !skipn_app, skipn_skipn, length_skipn.
    f_equal; f_equal; lia.
Qed.

Lemma pushAll_window (samples history : list num) :
  (length history <= 5)%nat ->
  fst (pushAll history samples)
  = skipn (length (history ++ samples) - 5) (history ++ samples).
Proof.
  revert history.
  induction samples as [| x rest IH]; intros history Hlen.
  - simpl. rewrite app_nil_r.
    replace (length history - 5)%nat with 0%nat by lia. reflexivity.
  - simpl. rewrite IH.
    + rewrite push_window_spec by assumption.
      rewrite skipn_last5_app, <- app_assoc. reflexivity.
    + rewrite push_window_length by assumption. lia.
Qed.

Lemma pushAll_window_length (samples history : list num) :
  (length history <= 5)%nat ->
  (length (fst (pushAll history samples)) <= 5)%nat.
Proof.
  intros Hlen. rewrite pushAll_window by assumption.
  rewrite length_skipn. lia.
Qed.

(** After at least four pushes of [v], one more push of [v] leaves a window
    of five copies of [v]. *)
Lemma window_of_constant_run (history : list num) (v : num) (m : nat) :
  (length history <= 5)%nat ->
  (4 <= m)%nat ->
  push_window (fst (pushAll history (repeat v m))) v = repeat v 5.
Proof.
  intros Hlen Hm.
  rewrite push_window_spec by (apply pushAll_window_length; assumption).
  rewrite pushAll_window by assumption.
  rewrite skipn_last5_app.
  rewrite <- app_assoc, !length_app, repeat_length. simpl length.
  rewrite skipn_app.
  rewrite (skipn_all2 history) by lia.
  replace (repeat v m ++ [v]) with (repeat v (m + 1))
    by (rewrite repeat_app; reflexivity).
  simpl app.
  replace (length history + (m + 1) - 5 - length history)%nat
    with (m - 4)%nat by lia.
  replace (m + 1)%nat with ((m - 4) + 5)%nat at 1 by lia.
  rewrite repeat_app, skipn_app, repeat_length.
  rewrite skipn_all2 by (rewrite repeat_length; lia).
  replace (m - 4 - (m - 4))%nat with 0%nat by lia.
  reflexivity.
Qed.

End WindowFacts.

(** ** The weighted average, in exact arithmetic *)

Lemma forEach_weights_sums (l : list R) (k : nat) (a b : R) :
  forEach_weights l k (a, b)
  = (a + Rsum (map (fun i => nth i l 0 * INR (k + i + 1)) (seq 0 (length l))),
     b + Rsum (map (fun i => INR (k + i + 1)) (seq 0 (length l)))).
Proof.
  revert k a b. induction l as [| s rest IH]; intros k a b.
  - simpl. f_equal; lra.
  - cbn [forEach_weights fst snd num_add num_mul num_of_nat real_number].
    rewrite IH. cbn [length seq map Rsum fold_right nth].
    rewrite <- seq_shift, !map_map.
    rewrite (map_ext (fun i => nth (S i) (s :: rest) 0 * INR (k + S i + 1))
                     (fun i => nth i rest 0 * INR (S k + i + 1)))
      by (intros i; simpl nth; do 2 f_equal; lia).
    rewrite (map_ext (fun i => INR (k + S i + 1))
                     (fun i => INR (S k + i + 1)))
      by (intros i; f_equal; lia).
    fold (Rsum (map (fun i => nth i rest 0 * INR (S k + i + 1))
                    (seq 0 (length rest)))).
    fold (Rsum (map (fun i => INR (S k + i + 1)) (seq 0 (length rest)))).
    replace (k + 0 + 1)%nat with (k + 1)%nat by lia.
    f_equal; lra.
Qed.

Lemma smoothSpeed_weighted_average (history : list R) (x : R) :
  snd (smoothSpeed history x)
  = spec_weighted_average (fst (smoothSpeed history x)).
Proof.
  unfold smoothSpeed, spec_weighted_average, weightedSum, totalWeight.
  cbn [fst snd]. rewrite forEach_weights_sums. cbn [fst snd].
  cbn [num_div num_of_nat real_number INR]. rewrite !Rplus_0_l.
  reflexivity.
Qed.

(** The accumulators stay between [lo] and [hi] times the weight so far,
    and every entry adds at least 1 to the weight. *)
Lemma forEach_weights_bounds (lo hi : R) (l : list R) (k : nat) (a b : R) :
  (forall s, In s l -> lo <= s <= hi) ->
  lo * b <= a <= hi * b ->
  let acc := forEach_weights l k (a, b) in
  lo * snd acc <= fst acc <= hi * snd acc
  /\ b + INR (length l) <= snd acc.
Proof.
  revert k a b. induction l as [| s rest IH]; intros k a b Hin Hab.
  - simpl. split; [assumption | lra].
  - cbn [forEach_weights fst snd num_add num_mul num_of_nat real_number].
    assert (Hw : 1 <= INR (k + 1)).
    { replace 1 with (INR 1) by reflexivity. apply le_INR. lia. }
    assert (Hs : lo <= s <= hi) by (apply Hin; left; reflexivity).
    destruct (IH (S k) (a + s * INR (k + 1)) (b + INR (k + 1))) as [Hacc Hlen].
    + intros s' Hs'. apply Hin. right. assumption.
    + nra.
    + cbv zeta. split; [exact Hacc |].
      cbn [length]. rewrite S_INR. lra.
Qed.

Lemma forEach_weights_total (l : list R) (k : nat) (a b : R) :
  b + INR (length l) <= snd (forEach_weights l k (a, b)).
Proof.
  revert k a b. induction l as [| s rest IH]; intros k a b.
  - simpl. lra.
  - cbn [forEach_weights fst snd num_add num_mul num_of_nat real_number].
    assert (Hw : 1 <= INR (k + 1)).
    { replace 1 with (INR 1) by reflexivity. apply le_INR. lia. }
    specialize (IH (S k) (a + s * INR (k + 1)) (b + INR (k + 1))).
    cbn [length]. rewrite S_INR. lra.
Qed.

Lemma totalWeight_ge_1 (window : list R) :
  window <> [] -> 1 <= totalWeight window.
Proof.
  intros Hne. unfold totalWeight.
  pose proof (forEach_weights_total window 0 (INR 0) (INR 0)) as Hlen.
  cbn [num_of_nat real_number].
  destruct window as [| s rest]; [congruence |].
  cbn [length] in Hlen. rewrite S_INR in Hlen.
  pose proof (pos_INR (length rest)). simpl INR in Hlen at 1. lra.
Qed.

Lemma weighted_average_between (lo hi : R) (window : list R) :
  window <> [] ->
  (forall s, In s window -> lo <= s <= hi) ->
  lo <= weightedSum window / totalWeight window <= hi.
Proof.
  intros Hne Hin.
  pose proof (totalWeight_ge_1 window Hne) as Hw.
  destruct (forEach_weights_bounds lo hi window 0 (INR 0) (INR 0) Hin)
    as [Hacc _].
  { simpl. lra. }
  fold (weightedSum window) in Hacc. fold (totalWeight window) in Hacc.
  cbn [num_of_nat real_number] in *.
  unfold weightedSum, totalWeight in *. cbn [num_of_nat real_number] in *.
  set (S := fst _) in *. set (W := snd _) in *.
  assert (Hq : S / W * W = S) by (field; lra).
  split; apply Rmult_le_reg_r with W; try lra; rewrite Hq; lra.
Qed.

(** ** The component's invariants, in any arithmetic *)

(** Unfolds one step into the handler that ran, or no change. *)
Ltac step_cases e :=
  unfold step; destruct (enabled _ e) eqn:Henabled; [| try assumption];
  destruct e; cbn [handle with_tracking with_capture tracking capture
                   displayUnit] in *.

Section Reachability.
Context {num : Type} `{JSNumber num}.

Lemma reachable_run (s : State num) (events : list (Event num)) :
  reachable s -> reachable (run s events).
Proof.
  revert s. induction events as [| e rest IH]; intros s Hs.
  - exact Hs.
  - simpl. apply IH. apply reachable_step. exact Hs.
Qed.

Lemma window_length_startTracking (t : Tracking num) :
  (length (speedHistoryRef t) <= 5)%nat ->
  (length (speedHistoryRef (startTracking t)) <= 5)%nat.
Proof.
  intros Hlen. unfold startTracking.
  destruct (negb (geolocation t)); simpl; [assumption | lia].
Qed.

Lemma window_length_onPosition (t : Tracking num) (p : GeolocationPosition num) :
  (length (speedHistoryRef t) <= 5)%nat ->
  (length (speedHistoryRef (onPosition t p)) <= 5)%nat.
Proof.
  intros Hlen. unfold onPosition, smoothSpeed. cbn [speedHistoryRef fst].
  rewrite push_window_length by assumption. lia.
Qed.

Lemma reachable_window_length (s : State num) :
  reachable s -> (length (speedHistoryRef (tracking s)) <= 5)%nat.
Proof.
  induction 1 as [supported | s e Hs IH].
  - simpl. lia.
  - step_cases e; try assumption.
    + apply window_length_startTracking. assumption.
    + apply window_length_onPosition. assumption.
Qed.

End Reachability.

(** ** C4: the window never holds more than five samples *)

(** C4.  For every sequence of [smoothSpeed] calls the recency window
    ([speedHistoryRef.current]) holds at most 5 entries, in every
    arithmetic: starting from the empty window it is exactly the last five
    samples pushed, in the order pushed; a push onto a full window drops
    the oldest entry and appends the new one, a push onto a shorter window
    only appends; and in every state the component reaches the window has
    at most 5 entries. *)
Theorem recency_window_at_most_five :
  (forall (num : Type) (N : Number num) (samples : list num),
     fst (pushAll [] samples) = skipn (length samples - 5) samples
     /\ (length (fst (pushAll [] samples)) <= 5)%nat)
  /\ (forall (num : Type) (N : Number num) (history : list num) (x : num),
        length history = 5%nat ->
        fst (smoothSpeed history x) = tl history ++ [x])
  /\ (forall (num : Type) (N : Number num) (history : list num) (x : num),
        (length history < 5)%nat ->
        fst (smoothSpeed history x) = history ++ [x])
  /\ (forall (num : Type) (J : JSNumber num) (supported : bool)
             (events : list (Event num)),
        (length (speedHistoryRef
                   (tracking (run (initialState supported) events))) <= 5)%nat).
Proof.
  repeat split.
  - rewrite pushAll_window by (simpl; lia). reflexivity.
  - apply pushAll_window_length. simpl. lia.
  - intros num N history x Hlen. cbn [smoothSpeed fst]. unfold push_window.
    rewrite length_app, Hlen. simpl.
    destruct history; [discriminate | reflexivity].
  - intros num N history x Hlen. cbn [smoothSpeed fst]. unfold push_window.
    rewrite length_app. simpl length.
    destruct (Nat.ltb_spec 5 (length history + 1)); [lia | reflexivity].
  - intros num J supported events. apply reachable_window_length.
    apply reachable_run. constructor.
Qed.

Lemma recency_window_at_most_five_witness :
  fst (smoothSpeed [1; 2; 3; 4; 5] 6) = [2; 3; 4; 5; 6]
  /\ fst (smoothSpeed [1; 2] 3) = [1; 2; 3].
Proof.
  split.
  - apply (proj1 (proj2 recency_window_at_most_five) R real_number
             [1; 2; 3; 4; 5] 6).
    reflexivity.
  - apply (proj1 (proj2 (proj2 recency_window_at_most_five)) R real_number
             [1; 2] 3).
    simpl. lia.
Defined.

(** ** C3: the linear-ramp weighted average *)

Lemma smoothSpeed_constant_run (history : list R) (v : R) (m : nat) :
  (length history <= 5)%nat ->
  (4 <= m)%nat ->
  snd (smoothSpeed (fst (pushAll history (repeat v m))) v) = v.
Proof.
  intros Hlen Hm. unfold smoothSpeed. cbn [snd].
  rewrite window_of_constant_run by assumption.
  unfold weightedSum, totalWeight. simpl. field.
Qed.

(** C3, as the code has it.  In every arithmetic the value returned for a
    full window is the left-to-right sum of sample_i * (i+1) divided by the
    left-to-right sum of the weights 1..5.  In exact (real) arithmetic the
    value returned by every call is the weighted average
    sum(sample_i * (i+1)) / sum(i+1) of the window, oldest entry at
    index 0, and the fifth and every later push of the same value [v]
    in a row returns exactly [v]. *)
Theorem smoothSpeed_linear_ramp_average :
  (forall (num : Type) (N : Number num) (a b c d e : num),
     let add := num_add in
     let mul := num_mul in
     let w := num_of_nat in
     snd (smoothSpeed [a; b; c; d] e)
     = num_div
         (add (add (add (add (add (w 0%nat) (mul a (w 1%nat))) (mul b (w 2%nat)))
                        (mul c (w 3%nat))) (mul d (w 4%nat))) (mul e (w 5%nat)))
         (add (add (add (add (add (w 0%nat) (w 1%nat)) (w 2%nat)) (w 3%nat))
                   (w 4%nat)) (w 5%nat)))
  /\ (forall (history : list R) (x : R),
        snd (smoothSpeed history x)
        = spec_weighted_average (fst (smoothSpeed history x)))
  /\ (forall (history : list R) (v : R) (m : nat),
        (length history <= 5)%nat ->
        (4 <= m)%nat ->
        snd (smoothSpeed (fst (pushAll history (repeat v m))) v) = v).
Proof.
  split; [| split].
  - intros. reflexivity.
  - exact smoothSpeed_weighted_average.
  - exact smoothSpeed_constant_run.
Qed.

Lemma smoothSpeed_linear_ramp_average_witness :
  snd (smoothSpeed (fst (pushAll [3; 8] (repeat 7 4))) 7) = 7.
Proof.
  apply (proj2 (proj2 smoothSpeed_linear_ramp_average) [3; 8] 7 4%nat).
  - simpl. lia.
  - lia.
Defined.

(** C3 as stated fails in the program's own arithmetic: with binary64
    numbers the fifth push of 0.01 in a row, from the empty window, returns
    a value above 0.01 (0.010000000000000002). *)
Lemma smoothSpeed_constant_run_binary64 :
  let v := 0.01%float in
  let fifth := snd (smoothSpeed (fst (pushAll [] (repeat v 4))) v) in
  PrimFloat.ltb v fifth = true /\ fifth <> v.
Proof.
  cbv zeta. split.
  - vm_compute. reflexivity.
  - intros Heq.
    apply (f_equal (fun r => PrimFloat.eqb r 0.01%float)) in Heq.
    vm_compute in Heq. discriminate Heq.
Qed.

(** ** Signs in binary64

    The primitive operations are specified by [SpecFloat] through the
    equations of [FloatAxioms]; the lemmas below follow the sign through
    rounding. *)

Section Binary64Signs.
Local Open Scope Z_scope.

Lemma shr_1_nonneg (mrs : shr_record) :
  0 <= shr_m mrs -> 0 <= shr_m (shr_1 mrs).
Proof.
  destruct mrs as [m r s]. simpl.
  destruct m as [| [p | p |] | [p | p |]]; simpl; lia.
Qed.

Lemma iter_pos_shr_1_nonneg (p : positive) (mrs : shr_record) :
  0 <= shr_m mrs -> 0 <= shr_m (SpecFloat.iter_pos shr_1 p mrs).
Proof.
  revert mrs. induction p as [p IH | p IH |]; intros mrs Hm; simpl.
  - apply IH, IH, shr_1_nonneg, Hm.
  - apply IH, IH, Hm.
  - apply shr_1_nonneg, Hm.
Qed.

Lemma shr_fexp_nonneg (p e : Z) (m ex : Z) (l : location) :
  0 <= m -> 0 <= shr_m (fst (shr_fexp p e m ex l)).
Proof.
  intros Hm. unfold shr_fexp, shr.
  assert (H0 : 0 <= shr_m (shr_record_of_loc m l)).
  { destruct l as [| []]; exact Hm. }
  destruct (fexp p e (Zdigits2 m + ex) - ex); simpl; try exact H0.
  apply iter_pos_shr_1_nonneg, H0.
Qed.

Lemma round_nearest_even_nonneg (m : Z) (l : location) :
  0 <= m -> 0 <= round_nearest_even m l.
Proof.
  intros Hm. destruct l as [| []]; simpl; try lia.
  destruct (Z.even m); lia.
Qed.

(** Rounding a non-negative integer mantissa gives a zero, a finite
    number or an infinity of the requested sign, never a NaN. *)
Lemma binary_round_aux_sign (p e : Z) (sx : bool) (mx ex : Z) (lx : location) :
  0 <= mx ->
  match binary_round_aux p e sx mx ex lx with
  | S754_zero s => s = sx
  | S754_infinity s => s = sx
  | S754_nan => False
  | S754_finite s _ _ => s = sx
  end.
Proof.
  intros Hm. unfold binary_round_aux.
  pose proof (shr_fexp_nonneg p e mx ex lx Hm) as H1.
  destruct (shr_fexp p e mx ex lx) as [mrs' e'] eqn:E1. simpl in H1.
  pose proof (shr_fexp_nonneg p e
                (round_nearest_even (shr_m mrs') (loc_of_shr_record mrs'))
                e' loc_Exact (round_nearest_even_nonneg _ _ H1)) as H2.
  destruct (shr_fexp p e _ e' loc_Exact) as [mrs'' e''] eqn:E2. simpl in H2.
  destruct (shr_m mrs'') as [| q | q]; try reflexivity.
  - destruct (e'' <=? e - p); reflexivity.
  - lia.
Qed.

Lemma SFadd_nonneg (x y : spec_float) :
  sf_nonneg x -> sf_nonneg y -> sf_nonneg (SF64add x y).
Proof.
  unfold SF64add.
  destruct x as [sx | sx | | sx mx ex], y as [sy | sy | | sy my ey];
    simpl; intros Hx Hy; subst; try tauto; try reflexivity.
  - destruct sx, sy; exact I.
  - cbn [cond_Zopp].
    match goal with
    | |- sf_nonneg (binary_normalize _ _ ?z _ _) =>
        assert (Hz : 0 < z) by lia; destruct z as [| m | m]; try lia
    end.
    unfold binary_normalize, binary_round.
    match goal with
    | |- context [shl_align m ?a ?b] => destruct (shl_align m a b) as [mz ez]
    end.
    pose proof (binary_round_aux_sign prec emax false (Z.pos mz) ez loc_Exact
                  ltac:(lia)) as Hs.
    destruct (binary_round_aux prec emax false (Z.pos mz) ez loc_Exact);
      simpl; tauto.
Qed.

Lemma SFmul_nonneg (x w : spec_float) :
  sf_nonneg x -> sf_positive_finite w -> sf_nonneg (SF64mul x w).
Proof.
  unfold SF64mul.
  destruct x as [sx | sx | | sx mx ex], w as [sw | sw | | sw mw ew];
    cbn [SFmul sf_nonneg sf_positive_finite]; intros Hx Hw; subst;
    try tauto; try reflexivity.
  cbn [xorb].
  pose proof (binary_round_aux_sign prec emax false (Z.pos (mx * mw))
                (ex + ew) loc_Exact ltac:(lia)) as Hs.
  destruct (binary_round_aux prec emax false (Z.pos (mx * mw)) (ex + ew)
              loc_Exact); simpl; tauto.
Qed.

Lemma SFdiv_nonneg (x w : spec_float) :
  sf_nonneg x -> sf_positive_finite w -> sf_nonneg (SF64div x w).
Proof.
  unfold SF64div.
  destruct x as [sx | sx | | sx mx ex], w as [sw | sw | | sw mw ew];
    cbn [SFdiv sf_nonneg sf_positive_finite]; intros Hx Hw; subst;
    try tauto; try reflexivity.
  cbn [xorb]. unfold SFdiv_core_binary.
  match goal with
  | |- context [Z.div_eucl ?n (Z.pos mw)] => set (m' := n)
  end.
  assert (Hm' : 0 <= m').
  { unfold m'.
    match goal with
    | |- 0 <= match ?sh with _ => _ end => destruct sh eqn:Hsh
    end; try lia.
    apply Z.shiftl_nonneg. lia. }
  pose proof (Z.div_pos m' (Z.pos mw) Hm' ltac:(lia)) as Hq.
  unfold Z.div in Hq.
  destruct (Z.div_eucl m' (Z.pos mw)) as [q r].
  match goal with
  | |- sf_nonneg (binary_round_aux _ _ _ _ ?e ?l) =>
      pose proof (binary_round_aux_sign prec emax false q e l Hq) as Hs;
      destruct (binary_round_aux prec emax false q e l)
  end; simpl; tauto.
Qed.

End Binary64Signs.

Section Binary64Nonneg.
Local Open Scope float_scope.

Lemma nonneg64_spec (x : float) :
  (0 <=? x) = true <-> sf_nonneg (Prim2SF x).
Proof.
  rewrite leb_spec.
  change (Prim2SF 0) with (S754_zero false).
  unfold SFleb, SFcompare.
  destruct (Prim2SF x) as [s | s | | s m e]; simpl.
  - tauto.
  - destruct s; simpl; split; congruence.
  - split; [discriminate | tauto].
  - destruct s; simpl; split; congruence.
Qed.

Lemma nonneg64_add (x y : float) :
  (0 <=? x) = true -> (0 <=? y) = true -> (0 <=? x + y) = true.
Proof.
  rewrite !nonneg64_spec, add_spec. apply SFadd_nonneg.
Qed.

Lemma nonneg64_mul (x w : float) :
  (0 <=? x) = true -> sf_positive_finite (Prim2SF w) ->
  (0 <=? x * w) = true.
Proof.
  rewrite !nonneg64_spec, mul_spec. apply SFmul_nonneg.
Qed.

Lemma nonneg64_div (x w : float) :
  (0 <=? x) = true -> sf_positive_finite (Prim2SF w) ->
  (0 <=? x / w) = true.
Proof.
  rewrite !nonneg64_spec, div_spec. apply SFdiv_nonneg.
Qed.

Ltac nonneg64_window Hpos :=
  repeat first
    [ apply nonneg64_div
    | apply nonneg64_add
    | apply nonneg64_mul
    | exact (eq_refl : sf_positive_finite (S754_finite false _ _))
    | reflexivity
    | solve [apply Hpos; simpl; tauto]
    | solve [vm_compute; reflexivity] ].

Lemma smoothSpeed_nonneg_binary64 (history : list float) (x : float) :
  (length history <= 5)%nat ->
  (forall s, In s (fst (smoothSpeed history x)) -> (0 <=? s) = true) ->
  (0 <=? snd (smoothSpeed history x)) = true.
Proof.
  intros Hlen Hpos.
  destruct history as [| a [| b [| c [| d [| e [| f rest]]]]]];
    [ .. | simpl in Hlen; lia];
    cbn [smoothSpeed push_window app length Nat.ltb Nat.leb tl fst snd
         weightedSum totalWeight forEach_weights
         num_add num_mul num_div binary64_number] in *.
  all: nonneg64_window Hpos.
Qed.

End Binary64Nonneg.

(** ** C10: the closing division and the range of the result *)

(** C10, as the code has it.  After the push the window is non-empty, in
    every arithmetic; the total weight is at least 1 in exact arithmetic
    and is one of 1, 3, 6, 10, 15 in binary64, so the division is never by
    zero.  In exact (real) arithmetic the returned value lies between the
    smallest and the largest sample of the window.  The returned value is
    non-negative when every sample of the window is, in exact arithmetic
    and in binary64. *)
Theorem smoothSpeed_division_and_range :
  (forall (num : Type) (N : Number num) (history : list num) (x : num),
     fst (smoothSpeed history x) <> [])
  /\ (forall (history : list R) (x : R),
        1 <= totalWeight (fst (smoothSpeed history x)))
  /\ (forall (history : list float) (x : float),
        (length history <= 5)%nat ->
        In (totalWeight (fst (smoothSpeed history x)))
           [1%float; 3%float; 6%float; 10%float; 15%float])
  /\ (forall (history : list R) (x : R),
        let window := fst (smoothSpeed history x) in
        MinRlist window <= snd (smoothSpeed history x) <= MaxRlist window)
  /\ (forall (history : list R) (x : R),
        (forall s, In s (fst (smoothSpeed history x)) -> 0 <= s) ->
        0 <= snd (smoothSpeed history x))
  /\ (forall (history : list float) (x : float),
        (length history <= 5)%nat ->
        (forall s, In s (fst (smoothSpeed history x)) ->
                   PrimFloat.leb 0%float s = true) ->
        PrimFloat.leb 0%float (snd (smoothSpeed history x)) = true).
Proof.
  split; [| split; [| split; [| split; [| split]]]];
    [ | | | | | exact smoothSpeed_nonneg_binary64 ].
  - intros num N history x. apply push_window_nonempty.
  - intros history x. apply totalWeight_ge_1. apply push_window_nonempty.
  - intros history x Hlen.
    destruct history as [| a [| b [| c [| d [| e [| f rest]]]]]];
      [vm_compute; tauto .. | simpl in Hlen; lia].
  - intros history x window. unfold window, smoothSpeed. cbn [fst snd].
    apply weighted_average_between.
    + apply push_window_nonempty.
    + intros s Hs. split; [apply MinRlist_P1 | apply MaxRlist_P1]; exact Hs.
  - intros history x Hpos. unfold smoothSpeed in *. cbn [fst snd] in *.
    pose proof (totalWeight_ge_1 _ (push_window_nonempty history x)) as Hw.
    destruct (forEach_weights_bounds 0 (MaxRlist (push_window history x))
                (push_window history x) 0 (INR 0) (INR 0)) as [[Hlo _] _].
    + intros s Hs. split; [apply Hpos | apply MaxRlist_P1]; exact Hs.
    + simpl. lra.
    + unfold weightedSum, totalWeight in *.
      cbn [num_of_nat num_div real_number] in *.
      apply Rmult_le_pos; [lra |].
      apply Rlt_le, Rinv_0_lt_compat. lra.
Qed.

Lemma smoothSpeed_division_and_range_witness :
  0 <= snd (smoothSpeed [2; 0] 4).
Proof.
  apply (proj1 (proj2 (proj2 (proj2 (proj2 smoothSpeed_division_and_range))))
           [2; 0] 4).
  intros s Hs. simpl in Hs.
  destruct Hs as [Hs | [Hs | [Hs | []]]]; rewrite <- Hs; lra.
Defined.

(** C10 as stated fails in the program's own arithmetic: with binary64
    numbers, pushing 0.1 onto the window [0.1] returns a value above the
    largest sample of the window [0.1; 0.1] (0.10000000000000002). *)
Lemma smoothSpeed_above_maximum_binary64 :
  let pushed := smoothSpeed [0.1%float] 0.1%float in
  fst pushed = [0.1%float; 0.1%float]
  /\ PrimFloat.ltb 0.1%float (snd pushed) = true.
Proof.
  cbv zeta. split; vm_compute; reflexivity.
Qed.

(** ** Comparisons, NaN and [Math.max] in binary64 *)

Section Binary64Order.
Local Open Scope float_scope.

Lemma SFcompare_refl (x : spec_float) :
  x <> S754_nan -> SFcompare x x = Some Eq.
Proof.
  destruct x as [s | s | | s m e]; intros Hx; simpl;
    try reflexivity; try congruence.
  - destruct s; reflexivity.
  - rewrite Z.compare_refl.
    assert (Hm : Pos.compare_cont Eq m m = Eq) by apply Pos.compare_refl.
    rewrite Hm. destruct s; reflexivity.
Qed.

Lemma SFcompare_antisym (x y : spec_float) :
  SFcompare y x = option_map CompOpp (SFcompare x y).
Proof.
  destruct x as [sx | sx | | sx mx ex], y as [sy | sy | | sy my ey];
    simpl; try reflexivity;
    try (destruct sx; reflexivity); try (destruct sy; reflexivity);
    try (destruct sx, sy; reflexivity).
  rewrite (Z.compare_antisym ey ex).
  assert (Hm : Pos.compare_cont Eq my mx = CompOpp (Pos.compare_cont Eq mx my))
    by apply Pos.compare_antisym.
  rewrite Hm.
  destruct sx, sy; simpl; try reflexivity;
    destruct (ey ?= ex)%Z; simpl; try reflexivity;
    destruct (Pos.compare_cont Eq mx my); reflexivity.
Qed.

Lemma nan_of_spec (x : float) : Prim2SF x = S754_nan -> x = nan.
Proof.
  intros Hx. rewrite <- (SF2Prim_Prim2SF x), Hx. reflexivity.
Qed.

Lemma is_nan_spec (x : float) :
  is_nan x = true <-> Prim2SF x = S754_nan.
Proof.
  unfold is_nan. rewrite FloatAxioms.eqb_spec. unfold SFeqb. split.
  - destruct (Prim2SF x) eqn:Hx; try reflexivity;
      rewrite SFcompare_refl by discriminate; discriminate.
  - intros ->. reflexivity.
Qed.

Lemma is_nan_eq (x : float) : is_nan x = true <-> x = nan.
Proof.
  split.
  - intros Hx. apply nan_of_spec, is_nan_spec, Hx.
  - intros ->. reflexivity.
Qed.

Lemma not_nan_spec (x : float) :
  is_nan x = false <-> Prim2SF x <> S754_nan.
Proof.
  rewrite <- is_nan_spec. destruct (is_nan x); split; congruence.
Qed.

Lemma ltb_leb (x y : float) : (x <? y) = true -> (x <=? y) = true.
Proof.
  rewrite ltb_spec, leb_spec. unfold SFltb, SFleb.
  destruct (SFcompare (Prim2SF x) (Prim2SF y)) as [[| |] |];
    congruence.
Qed.

Lemma eqb_leb (x y : float) : (x =? y) = true -> (x <=? y) = true.
Proof.
  rewrite FloatAxioms.eqb_spec, leb_spec. unfold SFeqb, SFleb.
  destruct (SFcompare (Prim2SF x) (Prim2SF y)) as [[| |] |];
    congruence.
Qed.

Lemma eqb_geb (x y : float) : (x =? y) = true -> (y <=? x) = true.
Proof.
  rewrite FloatAxioms.eqb_spec, leb_spec. unfold SFeqb, SFleb.
  rewrite (SFcompare_antisym (Prim2SF x) (Prim2SF y)).
  destruct (SFcompare (Prim2SF x) (Prim2SF y)) as [[| |] |];
    simpl; congruence.
Qed.

Lemma leb_refl (x : float) : is_nan x = false -> (x <=? x) = true.
Proof.
  rewrite not_nan_spec, leb_spec. intros Hx. unfold SFleb.
  rewrite SFcompare_refl by exact Hx. reflexivity.
Qed.

(** Two numbers that are not NaN compare one way or the other. *)
Lemma leb_total (x y : float) :
  is_nan x = false -> is_nan y = false ->
  (x <? y) = false -> (y <=? x) = true.
Proof.
  rewrite !not_nan_spec, ltb_spec, leb_spec. intros Hx Hy.
  unfold SFltb, SFleb.
  rewrite (SFcompare_antisym (Prim2SF x) (Prim2SF y)).
  destruct (Prim2SF x), (Prim2SF y); try congruence;
    destruct (SFcompare _ _) as [[| |] |] eqn:Hc; simpl;
    try congruence; try discriminate Hc.
Qed.


Lemma leb_not_nan (x y : float) :
  (x <=? y) = true -> is_nan x = false /\ is_nan y = false.
Proof.
  rewrite !not_nan_spec, leb_spec. unfold SFleb.
  destruct (Prim2SF x), (Prim2SF y); simpl; try discriminate;
    split; discriminate.
Qed.

(** [Math.max] *)

Lemma Math_max64_nan (x y : float) :
  is_nan x = true \/ is_nan y = true -> Math_max64 x y = nan.
Proof.
  intros Hn. unfold Math_max64.
  destruct Hn as [-> | ->]; [| rewrite orb_true_r]; reflexivity.
Qed.

Lemma Math_max64_cases (x y : float) :
  Math_max64 x y = nan \/ Math_max64 x y = x \/ Math_max64 x y = y.
Proof.
  unfold Math_max64.
  destruct (is_nan x || is_nan y); [tauto |].
  destruct (x <? y); [tauto |].
  destruct (x =? y); [| tauto].
  destruct (get_sign x); tauto.
Qed.

Lemma Math_max64_ge_l (x y : float) :
  is_nan x = false -> is_nan y = false ->
  (x <=? Math_max64 x y) = true.
Proof.
  intros Hx Hy. unfold Math_max64. rewrite Hx, Hy. cbn [orb].
  destruct (x <? y) eqn:Hlt; [apply ltb_leb, Hlt |].
  destruct (x =? y) eqn:Heq; [| apply leb_refl, Hx].
  destruct (get_sign x); [apply eqb_leb, Heq | apply leb_refl, Hx].
Qed.

Lemma Math_max64_ge_r (x y : float) :
  is_nan x = false -> is_nan y = false ->
  (y <=? Math_max64 x y) = true.
Proof.
  intros Hx Hy. unfold Math_max64. rewrite Hx, Hy. cbn [orb].
  destruct (x <? y) eqn:Hlt; [apply leb_refl, Hy |].
  destruct (x =? y) eqn:Heq; [| apply leb_total; assumption].
  destruct (get_sign x); [apply leb_refl, Hy | apply eqb_geb, Heq].
Qed.



End Binary64Order.

(** ** NaN through the arithmetic, and values that are never negative *)

Section Binary64NaN.
Local Open Scope float_scope.




Lemma div_nan_r (x : float) : x / nan = nan.
Proof.
  apply nan_of_spec. rewrite div_spec.
  change (Prim2SF nan) with S754_nan. destruct (Prim2SF x); reflexivity.
Qed.

Lemma add_nan_l (x : float) : nan + x = nan.
Proof. apply nan_of_spec. rewrite add_spec. reflexivity. Qed.

Lemma add_nan_r (x : float) : x + nan = nan.
Proof.
  apply nan_of_spec. rewrite add_spec.
  change (Prim2SF nan) with S754_nan. destruct (Prim2SF x); reflexivity.
Qed.





Lemma not_negative_spec (x : float) :
  (x <? 0) = false <-> sf_not_negative (Prim2SF x).
Proof.
  rewrite ltb_spec. change (Prim2SF 0) with (S754_zero false).
  unfold SFltb, SFcompare.
  destruct (Prim2SF x) as [s | s | | s m e]; simpl;
    try tauto; destruct s; simpl; split; congruence.
Qed.

Lemma not_negative_cases (x : float) :
  (x <? 0) = false <-> is_nan x = true \/ (0 <=? x) = true.
Proof.
  rewrite not_negative_spec, is_nan_spec, nonneg64_spec.
  destruct (Prim2SF x) as [s | s | | s m e]; simpl; split;
    try tauto; try (intros [Hn | Hn]; congruence); auto.
Qed.

End Binary64NaN.

Section Binary64NotNegative.
Local Open Scope Z_scope.

Lemma sf_nonneg_not_negative (x : spec_float) :
  sf_nonneg x -> sf_not_negative x.
Proof. destruct x; simpl; tauto. Qed.

Lemma sf_not_negative_cases (x : spec_float) :
  sf_not_negative x -> x = S754_nan \/ sf_nonneg x.
Proof. destruct x; simpl; tauto. Qed.

Lemma SFadd_not_negative (x y : spec_float) :
  sf_not_negative x -> sf_not_negative y -> sf_not_negative (SF64add x y).
Proof.
  intros Hx Hy.
  destruct (sf_not_negative_cases x Hx) as [-> | Hx'];
    [reflexivity |].
  destruct (sf_not_negative_cases y Hy) as [-> | Hy'];
    [destruct x; reflexivity |].
  apply sf_nonneg_not_negative, SFadd_nonneg; assumption.
Qed.

Lemma SFmul_not_negative (x w : spec_float) :
  sf_not_negative x -> sf_positive_finite w ->
  sf_not_negative (SF64mul x w).
Proof.
  intros Hx Hw.
  destruct (sf_not_negative_cases x Hx) as [-> | Hx'];
    [reflexivity |].
  apply sf_nonneg_not_negative, SFmul_nonneg; assumption.
Qed.

Lemma SFdiv_not_negative (x w : spec_float) :
  sf_not_negative x -> sf_positive_finite w ->
  sf_not_negative (SF64div x w).
Proof.
  intros Hx Hw.
  destruct (sf_not_negative_cases x Hx) as [-> | Hx'];
    [reflexivity |].
  apply sf_nonneg_not_negative, SFdiv_nonneg; assumption.
Qed.

End Binary64NotNegative.

Section Binary64Smoothing.
Local Open Scope float_scope.

Lemma not_negative_add (x y : float) :
  (x <? 0) = false -> (y <? 0) = false -> (x + y <? 0) = false.
Proof.
  rewrite !not_negative_spec, add_spec. apply SFadd_not_negative.
Qed.

Lemma not_negative_mul (x w : float) :
  (x <? 0) = false -> sf_positive_finite (Prim2SF w) ->
  (x * w <? 0) = false.
Proof.
  rewrite !not_negative_spec, mul_spec. apply SFmul_not_negative.
Qed.

Lemma not_negative_div (x w : float) :
  (x <? 0) = false -> sf_positive_finite (Prim2SF w) ->
  (x / w <? 0) = false.
Proof.
  rewrite !not_negative_spec, div_spec. apply SFdiv_not_negative.
Qed.

Ltac not_negative_window Hpos :=
  repeat first
    [ apply not_negative_div
    | apply not_negative_add
    | apply not_negative_mul
    | exact (eq_refl : sf_positive_finite (S754_finite false _ _))
    | reflexivity
    | solve [apply Hpos; simpl; tauto]
    | solve [vm_compute; reflexivity] ].

(** The smoothed speed is never negative when no sample of the window
    is: NaN samples give NaN, the others a non-negative average. *)
Lemma smoothSpeed_not_negative_binary64 (history : list float) (x : float) :
  (length history <= 5)%nat ->
  (forall s, In s (fst (smoothSpeed history x)) -> (s <? 0) = false) ->
  (snd (smoothSpeed history x) <? 0) = false.
Proof.
  intros Hlen Hpos.
  destruct history as [| a [| b [| c [| d [| e [| f rest]]]]]];
    [ .. | simpl in Hlen; lia];
    cbn [smoothSpeed push_window app length Nat.ltb Nat.leb tl fst snd
         weightedSum totalWeight forEach_weights
         num_add num_mul num_div binary64_number] in *.
  all: not_negative_window Hpos.
Qed.

Lemma Math_max64_not_negative (x y : float) :
  (x <? 0) = false -> (y <? 0) = false -> (Math_max64 x y <? 0) = false.
Proof.
  intros Hx Hy.
  destruct (Math_max64_cases x y) as [-> | [-> | ->]];
    [reflexivity | exact Hx | exact Hy].
Qed.

End Binary64Smoothing.

(** ** The order of binary64 is transitive *)

Section Binary64Transitive.
Local Open Scope Z_scope.



End Binary64Transitive.


(** ** C1: the haversine distance and the derived speed *)

(** Reads the operations of [JSNumber] at the real instance. *)
Ltac real_arith :=
  cbn [num_int num_literal real_js real_literal js_arith real_number
       num_of_nat num_add num_mul num_div num_sub num_eqb num_geb
       Math_PI Math_sin Math_cos Math_sqrt Math_atan2 Math_max Math_min] in *;
  change (IZR 2237 / IZR (Z.pow_pos 10 3)) with 2.237 in *;
  change (IZR 1609344 / IZR (Z.pow_pos 10 6)) with 1.609344 in *;
  change (IZR 2827 / IZR (Z.pow_pos 10 3)) with 2.827 in *;
  change (IZR 2827 / IZR (Z.pow_pos 10 1)) with 282.7 in *;
  change (IZR (6371 * Z.pow_pos 10 3)) with 6371000 in *.


Lemma Req_bool_false (x y : R) : x <> y -> Req_bool x y = false.
Proof.
  intros Hne. unfold Req_bool. destruct (Req_dec_T x y); congruence.
Qed.

Lemma R_earth_real : R_earth (num := R) = 6371000.
Proof. reflexivity. Qed.

(** The [a] of the code is the a_hav of the spec. *)
Lemma calculateSpeed_a_hav (pos1 pos2 : Position R) :
  haversine_a pos1 pos2 = spec_a_hav pos1 pos2.
Proof.
  unfold haversine_a, spec_a_hav, radians, Rsqr. real_arith.
  replace ((latitude pos2 * PI / 180 - latitude pos1 * PI / 180) / 2)
    with ((latitude pos2 - latitude pos1) * PI / 180 / 2) by field.
  replace ((longitude pos2 * PI / 180 - longitude pos1 * PI / 180) / 2)
    with ((longitude pos2 - longitude pos1) * PI / 180 / 2) by field.
  ring.
Qed.

(** In any arithmetic: the guard, then the formula over the locals. *)
Lemma calculateSpeed_unfold {num : Type} `{JSNumber num}
  (pos1 pos2 : Position num) :
  calculateSpeed pos1 pos2
  = if num_eqb (timeDiff pos1 pos2) (num_int 0) then num_int 0
    else
      num_mul
        (num_div
           (num_mul R_earth
              (num_mul (num_int 2)
                 (Math_atan2
                    (Math_sqrt (haversine_a pos1 pos2))
                    (Math_sqrt (num_sub (num_int 1)
                                  (haversine_a pos1 pos2))))))
           (timeDiff pos1 pos2))
        (num_literal 2237 (-3)).
Proof. reflexivity. Qed.

Lemma calculateSpeed_differing_timestamps (a b : Position R) :
  timestamp b <> timestamp a ->
  calculateSpeed a b
  = spec_distance a b / ((timestamp b - timestamp a) / 1000) * 2.237.
Proof.
  intros Hne. rewrite calculateSpeed_unfold, calculateSpeed_a_hav.
  rewrite R_earth_real. unfold timeDiff. real_arith.
  rewrite Req_bool_false by (intros Hz; apply Hne; lra).
  unfold spec_distance. reflexivity.
Qed.


(** *** The same function in binary64 *)

Section CalculateSpeed64.
Variable m : MathLibrary.
Local Open Scope float_scope.



End CalculateSpeed64.







(** ** C2: the estimator's priority order *)

Lemma Rge_bool_true (x y : R) : y <= x -> Rge_bool x y = true.
Proof.
  intros Hle. unfold Rge_bool. destruct (Rge_dec x y); [reflexivity | lra].
Qed.

Lemma Rge_bool_false (x y : R) : x < y -> Rge_bool x y = false.
Proof.
  intros Hlt. unfold Rge_bool. destruct (Rge_dec x y); [lra | reflexivity].
Qed.



(** [Math.max(0, raw)] in binary64 is never negative: it is NaN exactly
    when [raw] is, and non-negative otherwise. *)
Lemma clamp_binary64 (raw : float) :
  PrimFloat.ltb (Math_max64 0 raw) 0 = false
  /\ (PrimFloat.is_nan raw = true -> Math_max64 0 raw = PrimFloat.nan)
  /\ (PrimFloat.is_nan raw = false ->
      PrimFloat.leb 0 (Math_max64 0 raw) = true).
Proof.
  assert (Hnan : PrimFloat.is_nan raw = true ->
                 Math_max64 0 raw = PrimFloat.nan)
    by (intros Hr; apply Math_max64_nan; right; exact Hr).
  assert (Hpos : PrimFloat.is_nan raw = false ->
                 PrimFloat.leb 0 (Math_max64 0 raw) = true)
    by (intros Hr; apply Math_max64_ge_l; [reflexivity | exact Hr]).
  split; [| split; assumption].
  apply not_negative_cases.
  destruct (PrimFloat.is_nan raw) eqn:Hr.
  - left. rewrite Hnan by reflexivity. reflexivity.
  - right. apply Hpos. reflexivity.
Qed.

(** A reported speed [s >= 0] gives a sample that is at least 0. *)
Lemma clamp_reported_binary64 (s : float) :
  PrimFloat.leb 0 s = true ->
  PrimFloat.leb 0 (Math_max64 0 (s * 2.237)%float) = true.
Proof.
  intros Hs. apply clamp_binary64.
  apply leb_not_nan with (x := 0%float).
  apply nonneg64_mul; [exact Hs | reflexivity].
Qed.





(** ** C5: the maximum speed *)

Lemma In_push_window {num : Type} `{Number num}
  (history : list num) (x y : num) :
  In y (push_window history x) -> In y history \/ y = x.
Proof.
  unfold push_window. intros Hy.
  assert (Hin : In y (history ++ [x])).
  { destruct (5 <? length (history ++ [x]))%nat; [| exact Hy].
    destruct (history ++ [x]); [destruct Hy | right; exact Hy]. }
  apply in_app_or in Hin. destruct Hin as [Hh | [Hx | []]]; auto.
Qed.

Section MaxSpeed.
Context {num : Type} `{JSNumber num}.

Lemma maxSpeed_startTracking (t : Tracking num) :
  maxSpeed (startTracking t) = maxSpeed t.
Proof.
  unfold startTracking. destruct (negb (geolocation t)); reflexivity.
Qed.


Lemma onPositions_snoc (t : Tracking num)
  (fixes : list (GeolocationPosition num)) (p : GeolocationPosition num) :
  onPositions t (fixes ++ [p]) = onPosition (onPositions t fixes) p.
Proof.
  unfold onPositions. rewrite fold_left_app. reflexivity.
Qed.

End MaxSpeed.


(** *** The maximum in binary64 *)

Section MaxSpeed64.
Variable m : MathLibrary.
#[local] Hint Extern 0 (JSNumber float) =>
  exact (binary64_js m) : typeclass_instances.
Local Open Scope float_scope.




(** The speed, the maximum and the samples are never negative. *)
Lemma never_negative64_onPosition (t : Tracking float)
  (position : GeolocationPosition float) :
  (length (speedHistoryRef t) <= 5)%nat ->
  never_negative64 t -> never_negative64 (onPosition t position).
Proof.
  intros Hlen (Hs & Hm & Hw).
  set (raw := currentSpeed (lastPositionRef t) position (positionOf position)).
  assert (Hwin : forall x,
            In x (fst (smoothSpeed (speedHistoryRef t) (Math_max64 0 raw))) ->
            (x <? 0) = false).
  { intros x Hx. cbn [smoothSpeed fst] in Hx.
    apply In_push_window in Hx. destruct Hx as [Hx | ->].
    - apply Hw. exact Hx.
    - apply clamp_binary64. }
  assert (Hsm : (snd (smoothSpeed (speedHistoryRef t) (Math_max64 0 raw)) <? 0)
                = false)
    by (apply smoothSpeed_not_negative_binary64; assumption).
  unfold never_negative64.
  cbn [onPosition speed maxSpeed speedHistoryRef Math_max binary64_js
       num_int num_literal].
  change (float_literal 0 0) with 0. fold raw.
  split; [exact Hsm |]. split; [| exact Hwin].
  apply Math_max64_not_negative; assumption.
Qed.

Lemma reachable_never_negative64 (s : State float) :
  reachable s -> never_negative64 (tracking s).
Proof.
  induction 1 as [supported | s e Hs IH].
  - repeat split. intros x [].
  - pose proof (reachable_window_length s Hs) as Hlen.
    step_cases e; try exact IH;
      try (apply never_negative64_onPosition; assumption);
      destruct IH as (H1 & H2 & H3); unfold startTracking;
      try destruct (negb (geolocation (tracking s)));
      repeat split; try assumption; intros x [].
Qed.





End MaxSpeed64.




(** ** C9 and C7: stopping, failures and the subscription *)

Lemma clearWatch_removes (id : nat) (ws : list nat) :
  ~ In id (clearWatch id ws).
Proof.
  unfold clearWatch. rewrite filter_In. intros [_ Hneq].
  rewrite Nat.eqb_refl in Hneq. discriminate Hneq.
Qed.

Lemma reachable_idle_consistent {num : Type} `{JSNumber num} (s : State num) :
  reachable s -> idle_consistent (tracking s).
Proof.
  induction 1 as [supported | s e Hs [Hw Hidle]].
  - split; [reflexivity | intros _; repeat split; reflexivity].
  - unfold step. destruct (enabled s e) eqn:Hen; [| split; assumption].
    destruct e; cbn [handle with_tracking with_capture tracking];
      try (split; assumption);
      cbn [enabled] in Hen.
    + (* startTracking *)
      apply andb_prop in Hen. destruct Hen as [_ Hnot].
      apply negb_true_iff in Hnot.
      destruct (Hidle Hnot) as [Hid [Hsp Hco]].
      unfold startTracking. destruct (negb (geolocation (tracking s))).
      * split; [exact Hw | intros _; repeat split; assumption].
      * split.
        -- cbn [watches watchIdRef]. rewrite Hw, Hid. reflexivity.
        -- cbn [isTracking]. discriminate.
    + (* stopTracking *)
      split.
      * cbn [stopTracking watches watchIdRef]. rewrite Hw.
        destruct (watchIdRef (tracking s)) as [id |]; [| reflexivity].
        unfold clearWatch. simpl. rewrite Nat.eqb_refl. reflexivity.
      * intros _. repeat split; reflexivity.
    + (* a fix *)
      split; [exact Hw |].
      cbn [onPosition isTracking]. intros Hnot.
      destruct (Hidle Hnot) as [Hid _]. rewrite Hw, Hid in Hen.
      discriminate Hen.
    + (* a failure *)
      split; [exact Hw |].
      cbn [onPositionError isTracking]. intros Hnot.
      destruct (Hidle Hnot) as [Hid _]. rewrite Hw, Hid in Hen.
      discriminate Hen.
Qed.

(** C9.  [stopTracking] clears the watch named by [watchIdRef] (it is no
    longer registered afterwards) and the ref, sets [isTracking] and
    [isConnected] to false and [speed] to 0, and leaves [maxSpeed],
    [accuracy] and [heading] as they were; in every reachable state in
    which the component is already idle it changes nothing at all. *)
Theorem stopTracking_effect_and_frame {num : Type} `{JSNumber num} :
  (forall t : Tracking num,
     let t' := stopTracking t in
     isTracking t' = false
     /\ isConnected t' = false
     /\ speed t' = num_int 0
     /\ watchIdRef t' = None
     /\ (forall id, watchIdRef t = Some id -> ~ In id (watches t'))
     /\ maxSpeed t' = maxSpeed t
     /\ accuracy t' = accuracy t
     /\ heading t' = heading t)
  /\ (forall s : State num,
        reachable s ->
        isTracking (tracking s) = false ->
        stopTracking (tracking s) = tracking s
        /\ step s ClickStopTracking = s).
Proof.
  split.
  - intros t. cbv zeta. repeat split.
    intros id Hid. cbn [stopTracking watches]. rewrite Hid.
    apply clearWatch_removes.
  - intros s Hs Hidle.
    destruct (reachable_idle_consistent s Hs) as [Hw Hi].
    destruct (Hi Hidle) as [Hid [Hsp Hco]].
    split.
    + destruct (tracking s) as [sp mx tr er ac hd co wi lp sh ge ws nx].
      cbn in *. subst. reflexivity.
    + unfold step, enabled. rewrite Hidle, andb_false_r. reflexivity.
Qed.

Lemma stopTracking_effect_and_frame_witness :
  stopTracking (num := R) (tracking (initialState true))
  = tracking (initialState true)
  /\ step (num := R) (initialState true) ClickStopTracking
     = initialState true.
Proof.
  apply (proj2 (stopTracking_effect_and_frame (num := R))
           (initialState true)).
  - apply reachable_initial.
  - reflexivity.
Defined.

Lemma errorMessage_classes (code : nat) :
  (code = PERMISSION_DENIED ->
   errorMessage code
   = "Location access denied. Please enable location permissions."%string)
  /\ (code = POSITION_UNAVAILABLE ->
      errorMessage code = "Location information unavailable."%string)
  /\ (code = TIMEOUT ->
      errorMessage code = "Location request timed out."%string)
  /\ (code <> PERMISSION_DENIED -> code <> POSITION_UNAVAILABLE ->
      code <> TIMEOUT ->
      errorMessage code = "An unknown error occurred."%string).
Proof.
  unfold errorMessage, PERMISSION_DENIED, POSITION_UNAVAILABLE, TIMEOUT.
  repeat split.
  - intros ->. reflexivity.
  - intros ->. reflexivity.
  - intros ->. reflexivity.
  - intros H1 H2 H3.
    destruct (Nat.eqb_spec code 1); [contradiction |].
    destruct (Nat.eqb_spec code 2); [contradiction |].
    destruct (Nat.eqb_spec code 3); [contradiction |].
    reflexivity.
Qed.

(** C7, as the code has it.  A failure delivered to the error callback
    sets [isConnected] to false, stores one of the four messages (permission
    denied, position unavailable, timeout, unknown) chosen by the code, and
    leaves [isTracking], [watchIdRef] and the registered watches as they
    were.  A later successful fix sets [isConnected] back to true and
    leaves the error as it is.  The error is cleared by the next
    [startTracking], and by nothing else: an event that takes a state
    with an error to one without is a click on Start Tracking. *)
Theorem watch_failure_is_reported {num : Type} `{JSNumber num}
  (t : Tracking num) (code : nat) :
  let t' := onPositionError t code in
  isConnected t' = false
  /\ error t' = Some (errorMessage code)
  /\ In (errorMessage code)
        ["Location access denied. Please enable location permissions.";
         "Location information unavailable.";
         "Location request timed out.";
         "An unknown error occurred."]%string
  /\ ((code = PERMISSION_DENIED ->
       errorMessage code
       = "Location access denied. Please enable location permissions."%string)
      /\ (code = POSITION_UNAVAILABLE ->
          errorMessage code = "Location information unavailable."%string)
      /\ (code = TIMEOUT ->
          errorMessage code = "Location request timed out."%string)
      /\ (code <> PERMISSION_DENIED -> code <> POSITION_UNAVAILABLE ->
          code <> TIMEOUT ->
          errorMessage code = "An unknown error occurred."%string))
  /\ isTracking t' = isTracking t
  /\ watchIdRef t' = watchIdRef t
  /\ watches t' = watches t
  /\ (forall position : GeolocationPosition num,
        isConnected (onPosition t' position) = true
        /\ error (onPosition t' position) = error t')
  /\ (geolocation t = true -> error (startTracking t') = None)
  /\ (forall (s : State num) (e : Event num),
        error (tracking s) <> None ->
        error (tracking (step s e)) = None ->
        e = ClickStartTracking).
Proof.
  cbv zeta.
  split; [reflexivity |]. split; [reflexivity |].
  split.
  { unfold errorMessage.
    destruct (Nat.eqb code PERMISSION_DENIED); [simpl; tauto |].
    destruct (Nat.eqb code POSITION_UNAVAILABLE); [simpl; tauto |].
    destruct (Nat.eqb code TIMEOUT); simpl; tauto. }
  split; [apply errorMessage_classes |].
  split; [reflexivity |]. split; [reflexivity |]. split; [reflexivity |].
  split; [intros position; split; reflexivity |].
  split.
  - intros Hgeo. unfold startTracking.
    cbn [onPositionError geolocation]. rewrite Hgeo. reflexivity.
  - intros s e Herr Hnone. revert Hnone. unfold step.
    destruct (enabled s e); [| congruence].
    destruct e; cbn [handle with_tracking with_capture tracking];
      try congruence; try reflexivity;
      cbn [stopTracking resetMaxSpeed onPosition onPositionError error];
      try congruence; discriminate.
Qed.

Lemma watch_failure_is_reported_witness :
  error (startTracking (num := R)
           (onPositionError (startTracking (initialTracking true)) TIMEOUT))
  = None.
Proof.
  apply (proj1 (proj2 (proj2 (proj2 (proj2 (proj2 (proj2 (proj2 (proj2
           (watch_failure_is_reported (num := R)
              (startTracking (initialTracking true)) TIMEOUT)))))))))).
  reflexivity.
Defined.

(** C7 as stated fails: after a timeout, a successful fix leaves the
    timeout message in place. *)
Lemma fix_after_failure_keeps_error :
  let s := run (initialState true)
             [ClickStartTracking; WatchError 0 TIMEOUT;
              WatchPosition 0 fix_10mps] in
  isTracking (tracking s) = true
  /\ isConnected (tracking s) = true
  /\ error (tracking s) = Some "Location request timed out."%string.
Proof.
  cbv zeta. repeat split.
Qed.

(** ** C6 and C8: recording and the camera *)

Lemma nth_error_update_nth_same {A : Type} (f : A -> A) (l : list A)
  (i : nat) (x : A) :
  nth_error l i = Some x -> nth_error (update_nth i f l) i = Some (f x).
Proof.
  revert i. induction l as [| y rest IH]; intros [| i] Hnth;
    simpl in *; try discriminate.
  - congruence.
  - apply IH. exact Hnth.
Qed.

Lemma nth_error_update_nth_other {A : Type} (f : A -> A) (l : list A)
  (i j : nat) :
  i <> j -> nth_error (update_nth i f l) j = nth_error l j.
Proof.
  revert i j. induction l as [| y rest IH]; intros [| i] [| j] Hne;
    simpl; try reflexivity; try congruence.
  apply IH. congruence.
Qed.

Lemma nth_error_snoc {A : Type} (l : list A) (x : A) :
  nth_error (l ++ [x]) (length l) = Some x.
Proof.
  rewrite nth_error_app2 by lia. rewrite Nat.sub_diag. reflexivity.
Qed.

Lemma stopRecording_not_recording (c : Capture) :
  recording_consistent c -> isRecording (stopRecording c) = false.
Proof.
  intros Hinv. unfold stopRecording.
  destruct (isRecording c) eqn:Hrec.
  - destruct (Hinv Hrec) as [_ [_ [i [r [Href _]]]]].
    rewrite Href. reflexivity.
  - destruct (mediaRecorderRef c); exact Hrec.
Qed.

Lemma reachable_recording_consistent {num : Type} `{JSNumber num}
  (s : State num) :
  reachable s -> recording_consistent (capture s).
Proof.
  induction 1 as [supported | s e Hs IH].
  - intros Hrec. discriminate Hrec.
  - unfold step. destruct (enabled s e) eqn:Hen; [| exact IH].
    destruct e; cbn [handle with_tracking with_capture capture];
      try exact IH.
    + (* stopCamera *)
      intros Hrec. exfalso. revert Hrec. unfold stopCamera.
      destruct (isRecording (capture s)) eqn:Hwas.
      * destruct (IH Hwas) as [_ [_ [i [r [Href _]]]]].
        unfold stopRecording. cbn [mediaRecorderRef isRecording].
        rewrite Href. discriminate.
      * cbn [isRecording]. discriminate.
    + (* startRecording *)
      unfold startRecording.
      destruct (streamRef (capture s)) as [stream |] eqn:Hstream;
        [| exact IH].
      unfold canvasRef.
      destruct (isCameraActive (capture s)) eqn:Hcam; [| exact IH].
      intros _. cbn. split; [reflexivity |].
      split; [exists stream; reflexivity |].
      eexists _, _. split; [reflexivity |].
      split; [apply nth_error_snoc |]. split; reflexivity.
    + (* stopRecording *)
      intros Hrec. rewrite stopRecording_not_recording in Hrec by exact IH.
      discriminate Hrec.
    + (* downloadVideo *)
      unfold downloadVideo.
      destruct (recordedChunks (capture s)); exact IH.
    + (* getUserMedia resolved *)
      intros Hrec. destruct (IH Hrec) as [_ [_ Hrecorder]].
      split; [reflexivity |]. split; [eexists; reflexivity | exact Hrecorder].
    + (* a recorder's stop task *)
      cbn [enabled] in Hen. unfold recorder_stop_task.
      destruct (nth_error (recorders (capture s)) recorder) as [q |] eqn:Hq;
        [| exact IH].
      intros Hrec. destruct (IH Hrec) as [Hcam [Hst [i [r [Href [Hr [Hon Hnq]]]]]]].
      split; [exact Hcam |]. split; [exact Hst |].
      exists i, r. split; [exact Href |]. split; [| split; assumption].
      cbn [recorders]. rewrite nth_error_update_nth_other; [exact Hr |].
      intros ->. rewrite Hq in Hr. congruence.
Qed.



(** C8, as the code has it.  In a reachable state with [isRecording] true,
    [stopCamera] first stops every track of the held stream and clears
    [streamRef], then calls [stop()] on the recorder: the camera flag and
    [isRecording] are both false afterwards, the recorder is no longer
    recording and has its stop task queued, and [recordedChunks] is still
    what it was; the stop task then stores the recorder's chunks, with the
    final data appended when its size is positive. *)
Theorem stopCamera_while_recording {num : Type} `{JSNumber num}
  (s : State num) :
  reachable s ->
  isRecording (capture s) = true ->
  let c := capture s in
  let c' := stopCamera c in
  exists (stream : MediaStream) (i : nat) (r : MediaRecorder),
    streamRef c = Some stream
    /\ mediaRecorderRef c = Some i
    /\ nth_error (recorders c) i = Some r
    /\ isCameraActive c' = false
    /\ isRecording c' = false
    /\ streamRef c' = None
    /\ mediaCalls c'
       = mediaCalls c ++ map TrackStop (getTracks stream) ++ [RecorderStop i]
    /\ nth_error (recorders c') i
       = Some {| recording := false; stopQueued := true; chunks := chunks r |}
    /\ recordedChunks c' = recordedChunks c
    /\ (forall data : Blob,
          recordedChunks (recorder_stop_task c' i data)
          = if (0 <? size data)%nat then chunks r ++ [data] else chunks r).
Proof.
  intros Hs Hrec. cbv zeta.
  destruct (reachable_recording_consistent s Hs Hrec)
    as [Hcam [[stream Hstream] [i [r [Href [Hr [Hon Hnq]]]]]]].
  exists stream, i, r.
  assert (Hstop : stopCamera (capture s) = {|
    isRecording := false;
    isCameraActive := false;
    recordedChunks := recordedChunks (capture s);
    cameraError := cameraError (capture s);
    mediaRecorderRef := Some i;
    streamRef := None;
    recorders := update_nth i recorder_stop (recorders (capture s));
    pendingMedia := pendingMedia (capture s);
    mediaCalls := (mediaCalls (capture s) ++ map TrackStop (getTracks stream))
                  ++ [RecorderStop i] |}).
  { unfold stopCamera, stopRecording.
    cbn [mediaRecorderRef isRecording isCameraActive recordedChunks
         cameraError streamRef recorders pendingMedia mediaCalls].
    rewrite Hrec, Href, Hstream. reflexivity. }
  rewrite Hstop.
  cbn [isCameraActive isRecording streamRef mediaCalls recorders
       recordedChunks].
  assert (Hr' : nth_error (update_nth i recorder_stop (recorders (capture s))) i
                = Some {| recording := false; stopQueued := true;
                          chunks := chunks r |}).
  { rewrite (nth_error_update_nth_same recorder_stop _ _ r Hr). reflexivity. }
  repeat split; try assumption.
  - rewrite app_assoc. reflexivity.
  - intros data. unfold recorder_stop_task. cbn [recorders]. rewrite Hr'.
    reflexivity.
Qed.

Lemma stopCamera_while_recording_witness :
  let s := run (initialState (num := R) true)
             [ClickStartTracking; ClickStartCamera;
              MediaGranted camera_stream; ClickStartRecording] in
  exists (stream : MediaStream) (i : nat) (r : MediaRecorder),
    streamRef (capture s) = Some stream
    /\ mediaRecorderRef (capture s) = Some i
    /\ nth_error (recorders (capture s)) i = Some r
    /\ isCameraActive (stopCamera (capture s)) = false
    /\ isRecording (stopCamera (capture s)) = false
    /\ streamRef (stopCamera (capture s)) = None
    /\ mediaCalls (stopCamera (capture s))
       = mediaCalls (capture s) ++ map TrackStop (getTracks stream)
         ++ [RecorderStop i]
    /\ nth_error (recorders (stopCamera (capture s))) i
       = Some {| recording := false; stopQueued := true; chunks := chunks r |}
    /\ recordedChunks (stopCamera (capture s)) = recordedChunks (capture s)
    /\ (forall data : Blob,
          recordedChunks (recorder_stop_task (stopCamera (capture s)) i data)
          = if (0 <? size data)%nat then chunks r ++ [data] else chunks r).
Proof.
  cbv zeta.
  apply (stopCamera_while_recording
           (run (initialState (num := R) true)
              [ClickStartTracking; ClickStartCamera;
               MediaGranted camera_stream; ClickStartRecording])).
  - apply reachable_run. apply reachable_initial.
  - reflexivity.
Defined.

(** C8 as stated fails on the order: from a recording state, [stopCamera]
    stops the two tracks of the stream before it stops the recorder, and
    when it returns the recording buffer [recordedChunks] is still empty. *)
Lemma stopCamera_releases_before_stopRecording :
  let s := run (initialState (num := R) true)
             [ClickStartTracking; ClickStartCamera;
              MediaGranted camera_stream; ClickStartRecording] in
  isRecording (capture s) = true
  /\ mediaCalls (capture (step s ClickStopCamera))
     = [GetUserMedia; RecorderStart 0;
        TrackStop {| track_id := 0; track_kind := VideoTrack |};
        TrackStop {| track_id := 1; track_kind := AudioTrack |};
        RecorderStop 0]
  /\ recordedChunks (capture (step s ClickStopCamera)) = []
  /\ recordedChunks
       (capture (run s [ClickStopCamera; RecorderStopped 0 {| size := 0 |}]))
     = [].
Proof.
  cbv zeta. repeat split.
Qed.

(** ** The haversine distance: symmetry, zero and arc length *)





(** The angle recovered from a haversine term [sin x * sin x] with
    [x] in [[-PI/2, PI/2]] is [2 * |x|]. *)
Lemma haversine_angle (x : R) :
  - (PI / 2) <= x <= PI / 2 ->
  2 * Ratan2 (sqrt (sin x * sin x)) (sqrt (1 - sin x * sin x))
  = 2 * Rabs x.
Proof.
  intros Hx. pose proof PI2_RGT_0 as Hpi.
  assert (Hsin : sin (Rabs x) * sin (Rabs x) = sin x * sin x).
  { unfold Rabs. destruct (Rcase_abs x); [rewrite sin_neg; ring | ring]. }
  assert (Hcos : cos (Rabs x) = cos x).
  { unfold Rabs. destruct (Rcase_abs x); [apply cos_neg | reflexivity]. }
  assert (Hr : 0 <= Rabs x <= PI / 2).
  { split; [apply Rabs_pos |]. apply Rabs_le. lra. }
  rewrite <- Hsin. set (y := Rabs x) in *. clearbody y. clear x Hx Hsin Hcos.
  assert (Hsy : 0 <= sin y) by (apply sin_ge_0; lra).
  assert (Hcy : 0 <= cos y) by (apply cos_ge_0; lra).
  replace (1 - sin y * sin y) with (cos y * cos y)
    by (pose proof (sin2_cos2 y) as H; unfold Rsqr in H; lra).
  rewrite !sqrt_square by assumption.
  f_equal. unfold Ratan2.
  destruct (Rlt_dec 0 (cos y)) as [Hpos | Hnpos].
  - fold (tan y). apply atan_tan.
    split; [lra |].
    destruct (Rle_lt_or_eq_dec y (PI / 2) (proj2 Hr)) as [Hlt | Heq];
      [exact Hlt |].
    rewrite Heq, cos_PI2 in Hpos. lra.
  - assert (Hc0 : cos y = 0) by lra.
    destruct (Rlt_dec (cos y) 0) as [Hneg | _]; [lra |].
    assert (Hy : y = PI / 2).
    { destruct (Rle_lt_or_eq_dec y (PI / 2) (proj2 Hr)) as [Hlt | Heq];
        [| exact Heq].
      assert (0 < cos y) by (apply cos_gt_0; lra). lra. }
    rewrite Hy, sin_PI2.
    destruct (Rlt_dec 0 1) as [_ | Hn]; [reflexivity | lra].
Qed.

Lemma spec_distance_meridian (a b : Position R) :
  longitude a = longitude b ->
  Rabs (latitude b - latitude a) <= 180 ->
  spec_distance a b = 6371000 * (Rabs (latitude b - latitude a) * PI / 180).
Proof.
  intros Hlon Hd. pose proof PI_RGT_0 as Hpi.
  unfold spec_distance, spec_a_hav, Rsqr. rewrite Hlon.
  replace ((radians (longitude b) - radians (longitude b)) / 2) with 0 by field.
  rewrite sin_0.
  set (x := (radians (latitude b) - radians (latitude a)) / 2).
  replace (sin x * sin x + cos (radians (latitude a))
           * cos (radians (latitude b)) * (0 * 0))
    with (sin x * sin x) by ring.
  assert (Hx : x = (latitude b - latitude a) * (PI / 360))
    by (unfold x, radians; field).
  assert (Hd' : -180 <= latitude b - latitude a <= 180)
    by (unfold Rabs in Hd; destruct (Rcase_abs _); lra).
  rewrite haversine_angle by (rewrite Hx; split; nra).
  rewrite Hx, Rabs_mult, (Rabs_right (PI / 360)) by lra. field.
Qed.

Lemma spec_distance_equator (a b : Position R) :
  latitude a = 0 -> latitude b = 0 ->
  Rabs (longitude b - longitude a) <= 180 ->
  spec_distance a b = 6371000 * (Rabs (longitude b - longitude a) * PI / 180).
Proof.
  intros Ha Hb Hd. pose proof PI_RGT_0 as Hpi.
  unfold spec_distance, spec_a_hav, Rsqr. rewrite Ha, Hb.
  replace (radians 0) with 0 by (unfold radians; field).
  replace ((0 - 0) / 2) with 0 by field.
  rewrite sin_0, cos_0.
  set (x := (radians (longitude b) - radians (longitude a)) / 2).
  replace (0 * 0 + 1 * 1 * (sin x * sin x)) with (sin x * sin x) by ring.
  assert (Hx : x = (longitude b - longitude a) * (PI / 360))
    by (unfold x, radians; field).
  assert (Hd' : -180 <= longitude b - longitude a <= 180)
    by (unfold Rabs in Hd; destruct (Rcase_abs _); lra).
  rewrite haversine_angle by (rewrite Hx; split; nra).
  rewrite Hx, Rabs_mult, (Rabs_right (PI / 360)) by lra. field.
Qed.



(** X2.  Along a meridian (equal longitudes) and along the equator (both
    latitudes 0), for points at most 180 degrees apart, the haversine
    distance of the code is the arc length: 6371000 m times the angle in
    radians; the derived speed is that length over the time delta, times
    2.237. *)
Theorem great_circle_arc_length (a b : Position R) :
  (longitude a = longitude b ->
   Rabs (latitude b - latitude a) <= 180 ->
   spec_distance a b
   = 6371000 * (Rabs (latitude b - latitude a) * PI / 180))
  /\ (latitude a = 0 -> latitude b = 0 ->
      Rabs (longitude b - longitude a) <= 180 ->
      spec_distance a b
      = 6371000 * (Rabs (longitude b - longitude a) * PI / 180))
  /\ (latitude a = 0 -> latitude b = 0 ->
      Rabs (longitude b - longitude a) <= 180 ->
      timestamp b <> timestamp a ->
      calculateSpeed a b
      = 6371000 * (Rabs (longitude b - longitude a) * PI / 180)
        / ((timestamp b - timestamp a) / 1000) * 2.237)
  /\ (longitude a = longitude b ->
      Rabs (latitude b - latitude a) <= 180 ->
      timestamp b <> timestamp a ->
      calculateSpeed a b
      = 6371000 * (Rabs (latitude b - latitude a) * PI / 180)
        / ((timestamp b - timestamp a) / 1000) * 2.237).
Proof.
  split; [apply spec_distance_meridian |].
  split; [apply spec_distance_equator |].
  split.
  - intros Ha Hb Hd Ht.
    rewrite (calculateSpeed_differing_timestamps a b Ht).
    rewrite (spec_distance_equator a b Ha Hb Hd). reflexivity.
  - intros Hl Hd Ht.
    rewrite (calculateSpeed_differing_timestamps a b Ht).
    rewrite (spec_distance_meridian a b Hl Hd). reflexivity.
Qed.

Lemma great_circle_arc_length_witness :
  calculateSpeed equator_fix_a equator_fix_b
  = 6371000 * (Rabs (0.001 - 0) * PI / 180) / ((1000 - 0) / 1000) * 2.237.
Proof.
  apply (proj1 (proj2 (proj2
           (great_circle_arc_length equator_fix_a equator_fix_b))));
    try reflexivity.
  - simpl. rewrite Rabs_right; lra.
  - simpl. lra.
Defined.

(** * Further properties of the code *)

(** ** The tracking session in every reachable state *)

Lemma errorMessage_known (code : nat) : In (errorMessage code) trackingMessages.
Proof.
  unfold errorMessage, trackingMessages.
  destruct (Nat.eqb code PERMISSION_DENIED); [simpl; tauto |].
  destruct (Nat.eqb code POSITION_UNAVAILABLE); [simpl; tauto |].
  destruct (Nat.eqb code TIMEOUT); simpl; tauto.
Qed.

Lemma session_consistent_onPosition {num : Type} `{JSNumber num}
  (t : Tracking num) (p : GeolocationPosition num) :
  session_consistent t -> isTracking t = true ->
  session_consistent (onPosition t p).
Proof.
  intros (Hc & Ht & Hid & Hl & He) Htr.
  unfold session_consistent.
  cbn [onPosition speed maxSpeed speedHistoryRef isConnected isTracking
       geolocation watchIdRef watches nextWatchId lastPositionRef error].
  split; [intros _; exact Htr |].
  split; [exact Ht |]. split; [exact Hid |].
  split; [| exact He].
  split; [discriminate |].
  intros Hnil. exfalso.
  exact (push_window_nonempty _ _ Hnil).
Qed.

Lemma reachable_session_consistent {num : Type} `{JSNumber num}
  (s : State num) :
  reachable s -> session_consistent (tracking s).
Proof.
  induction 1 as [supported | s e Hs IH].
  - unfold session_consistent. cbn.
    repeat split; try tauto; try discriminate; try reflexivity.
  - pose proof (reachable_idle_consistent s Hs) as [Hwatch Hidle].
    unfold step. destruct (enabled s e) eqn:Hen; [| exact IH].
    destruct e; cbn [handle with_tracking with_capture tracking];
      try exact IH; cbn [enabled] in Hen;
      destruct IH as (Hc & Ht & Hid & Hl & He).
    + (* startTracking *)
      unfold startTracking.
      destruct (geolocation (tracking s)) eqn:Hgeo; cbn [negb].
      * unfold session_consistent. cbn.
        split; [|].
        -- apply andb_prop in Hen. destruct Hen as [_ Hnot].
           apply negb_true_iff in Hnot.
           destruct (Hidle Hnot) as [_ [_ Hco]]. rewrite Hco. discriminate.
        -- split; [intros _; split; [reflexivity | eexists; reflexivity] |].
           split.
           ++ intros id [<- | Hin]; [lia |]. specialize (Hid id Hin). lia.
           ++ split; [tauto | discriminate].
      * unfold session_consistent. cbn.
        split; [exact Hc |]. split; [exact Ht |]. split; [exact Hid |].
        split; [exact Hl |].
        intros message Hmsg. injection Hmsg as <-. simpl. tauto.
    + (* stopTracking *)
      unfold session_consistent. cbn.
      split; [discriminate |]. split; [discriminate |].
      split; [| split; [exact Hl | exact He]].
      intros id Hin. apply Hid.
      destruct (watchIdRef (tracking s)); [| exact Hin].
      unfold clearWatch in Hin. apply filter_In in Hin. tauto.
    + (* a fix *)
      apply session_consistent_onPosition.
      * unfold session_consistent. tauto.
      * destruct (isTracking (tracking s)) eqn:Htr; [reflexivity |].
        destruct (Hidle eq_refl) as [Hnone _].
        rewrite Hwatch, Hnone in Hen. discriminate Hen.
    + (* a failure *)
      unfold session_consistent. cbn.
      split; [discriminate |]. split; [exact Ht |]. split; [exact Hid |].
      split; [exact Hl |].
      intros message Hmsg. injection Hmsg as <-. apply errorMessage_known.
Qed.

(** X4.  In every state the component reaches, in any arithmetic:
    [isConnected] holds only while tracking; while tracking, geolocation
    exists and exactly one watch is registered, the one [watchIdRef]
    names, with an id below the next id; while idle no watch is
    registered and the speed is 0; the last fix is absent exactly when
    the window is empty; the window holds at most five samples; and a
    stored error is one of the five messages of the code.  In binary64,
    with any implementation of the [Math] functions, the speed, the
    maximum and every sample of the window are never negative: each is
    NaN or at least 0. *)
Theorem session_invariants :
  (forall (num : Type) (J : JSNumber num) (supported : bool)
          (events : list (Event num)),
     let t := tracking (run (initialState supported) events) in
     (isConnected t = true -> isTracking t = true)
     /\ (isTracking t = true ->
         geolocation t = true
         /\ exists id, watchIdRef t = Some id /\ watches t = [id]
                       /\ (id < nextWatchId t)%nat)
     /\ (isTracking t = false ->
         watchIdRef t = None /\ watches t = [] /\ speed t = num_int 0)
     /\ (lastPositionRef t = None <-> speedHistoryRef t = [])
     /\ (length (speedHistoryRef t) <= 5)%nat
     /\ (forall message, error t = Some message ->
                         In message trackingMessages))
  /\ (forall (m : MathLibrary) (supported : bool)
             (events : list (Event float)),
        let t := tracking (run (H := binary64_js m)
                             (initialState (H := binary64_js m) supported)
                             events) in
        PrimFloat.ltb (speed t) 0 = false
        /\ PrimFloat.ltb (maxSpeed t) 0 = false
        /\ (forall x, In x (speedHistoryRef t) -> PrimFloat.ltb x 0 = false)
        /\ (PrimFloat.is_nan (speed t) = true
            \/ PrimFloat.leb 0 (speed t) = true)
        /\ (PrimFloat.is_nan (maxSpeed t) = true
            \/ PrimFloat.leb 0 (maxSpeed t) = true)).
Proof.
  split.
  - intros num J supported events. cbv zeta.
    assert (Hr : reachable (run (initialState supported) events))
      by (apply reachable_run; constructor).
    destruct (reachable_session_consistent _ Hr) as (Hc & Ht & Hid & Hl & He).
    destruct (reachable_idle_consistent _ Hr) as [Hwatch Hidle].
    pose proof (reachable_window_length _ Hr) as Hlen.
    set (t := tracking (run (initialState supported) events)) in *.
    split; [exact Hc |]. split.
    + intros Htr. destruct (Ht Htr) as [Hgeo [id Href]].
      split; [exact Hgeo |]. exists id.
      rewrite Href in Hwatch. split; [exact Href |]. split; [exact Hwatch |].
      apply Hid. rewrite Hwatch. left. reflexivity.
    + split; [| split; [exact Hl | split; assumption]].
      intros Hnot. destruct (Hidle Hnot) as [Hnone [Hsp _]].
      split; [exact Hnone |]. split; [| exact Hsp].
      rewrite Hwatch, Hnone. reflexivity.
  - intros m supported events. cbv zeta.
    assert (Hr : reachable (H := binary64_js m)
                   (run (H := binary64_js m)
                      (initialState (H := binary64_js m) supported) events))
      by (apply reachable_run; constructor).
    destruct (reachable_never_negative64 m _ Hr) as (Hs & Hm & Hw).
    split; [exact Hs |]. split; [exact Hm |]. split; [exact Hw |].
    split; apply not_negative_cases; assumption.
Qed.

Lemma session_invariants_witness :
  isTracking (tracking (run (initialState true)
                          [ClickStartTracking; WatchPosition 0 fix_10mps]))
  = true.
Proof.
  apply (proj1 (proj1 session_invariants R real_js true
                  [ClickStartTracking; WatchPosition 0 fix_10mps])).
  reflexivity.
Defined.

(** ** Without geolocation *)

Lemma reachable_unsupported {num : Type} `{JSNumber num}
  (events : list (Event num)) (s : State num) :
  capture s = initialCapture ->
  (tracking s = initialTracking false
   \/ tracking s = startTracking (initialTracking false)) ->
  capture (run s events) = initialCapture
  /\ (tracking (run s events) = initialTracking false
      \/ tracking (run s events) = startTracking (initialTracking false)).
Proof.
  revert s. induction events as [| e rest IH]; intros s Hc Ht.
  - split; assumption.
  - simpl. apply IH.
    + unfold step, enabled. rewrite Hc.
      destruct Ht as [Ht | Ht]; rewrite Ht;
        destruct e; cbn; try reflexivity; try exact Hc;
        try (destruct (num_eqb _ _); cbn; exact Hc);
        try (destruct recorder; cbn; exact Hc).
    + unfold step, enabled. rewrite Hc.
      destruct Ht as [Ht | Ht]; rewrite Ht;
        destruct e; cbn; auto;
        try (destruct (num_eqb _ _); cbn; auto);
        try (destruct recorder; cbn; auto);
        try (rewrite Ht; cbn; auto).
Qed.

(** X5.  Without [navigator.geolocation] no sequence of events ever
    starts tracking: nothing is subscribed, speed and maximum stay 0, the
    only error ever stored is the not-supported message (stored once Start
    Tracking has been clicked), and the capture half never leaves its
    initial state, because the camera control stays disabled. *)
Theorem unsupported_platform_stays_idle {num : Type} `{JSNumber num}
  (events : list (Event num)) :
  let s := run (initialState false) events in
  isTracking (tracking s) = false
  /\ isConnected (tracking s) = false
  /\ watches (tracking s) = []
  /\ speed (tracking s) = num_int 0
  /\ maxSpeed (tracking s) = num_int 0
  /\ (error (tracking s) = None
      \/ error (tracking s)
         = Some "Geolocation is not supported by this browser"%string)
  /\ (In ClickStartTracking events ->
      error (tracking s)
      = Some "Geolocation is not supported by this browser"%string)
  /\ capture s = initialCapture.
Proof.
  cbv zeta.
  destruct (reachable_unsupported events (initialState false) eq_refl
              (or_introl eq_refl)) as [Hc Ht].
  assert (Hstart : In ClickStartTracking events ->
            tracking (run (initialState false) events)
            = startTracking (initialTracking false)).
  { clear Hc Ht.
    assert (Hgen : forall s,
              capture s = initialCapture ->
              (tracking s = initialTracking false
               \/ tracking s = startTracking (initialTracking false)) ->
              (In ClickStartTracking events
               \/ tracking s = startTracking (initialTracking false)) ->
              tracking (run s events) = startTracking (initialTracking false)).
    { induction events as [| e rest IH]; intros s Hc Ht Hin.
      - destruct Hin as [[] | Hin]. exact Hin.
      - simpl.
        destruct (reachable_unsupported [e] s Hc Ht) as [Hc' Ht'].
        simpl in Hc', Ht'. apply IH; try assumption.
        destruct Hin as [[-> | Hin] | Hin].
        + right. unfold step, enabled. rewrite Hc.
          destruct Ht as [Ht | Ht]; rewrite Ht; cbn; rewrite Ht; reflexivity.
        + left. exact Hin.
        + right. destruct Ht' as [Ht' | Ht']; [| exact Ht'].
          revert Ht'. unfold step, enabled. rewrite Hc, Hin.
          destruct e; cbn; rewrite ?Hin; cbn; try discriminate;
            try (destruct (num_eqb _ _); cbn; rewrite ?Hin; discriminate);
            try (destruct recorder; cbn; rewrite ?Hin; discriminate). }
    intros Hin. apply Hgen; auto. }
  split; [destruct Ht as [-> | ->]; reflexivity |].
  split; [destruct Ht as [-> | ->]; reflexivity |].
  split; [destruct Ht as [-> | ->]; reflexivity |].
  split; [destruct Ht as [-> | ->]; reflexivity |].
  split; [destruct Ht as [-> | ->]; reflexivity |].
  split; [destruct Ht as [-> | ->]; [left | right]; reflexivity |].
  split; [intros Hin; rewrite (Hstart Hin); reflexivity | exact Hc].
Qed.

Lemma unsupported_platform_stays_idle_witness :
  error (tracking (run (initialState (num := R) false)
                     [ClickStartTracking; ClickStartCamera]))
  = Some "Geolocation is not supported by this browser"%string.
Proof.
  apply (proj1 (proj2 (proj2 (proj2 (proj2 (proj2 (proj2
           (unsupported_platform_stays_idle (num := R)
              [ClickStartTracking; ClickStartCamera])))))))).
  left. reflexivity.
Defined.

(** ** Sessions do not mix, and a steady speed fills the window *)

Section Sessions.
Context {num : Type} `{JSNumber num}.

(** What a fix reads of the tracking state. *)
Lemma onPosition_reads_memory (t1 t2 : Tracking num)
  (p : GeolocationPosition num) :
  lastPositionRef t1 = lastPositionRef t2 ->
  speedHistoryRef t1 = speedHistoryRef t2 ->
  speed (onPosition t1 p) = speed (onPosition t2 p)
  /\ lastPositionRef (onPosition t1 p) = lastPositionRef (onPosition t2 p)
  /\ speedHistoryRef (onPosition t1 p) = speedHistoryRef (onPosition t2 p).
Proof.
  intros Hl Hh.
  cbn [onPosition speed lastPositionRef speedHistoryRef].
  rewrite Hl, Hh. repeat split.
Qed.

Lemma onPositions_reads_memory (fixes : list (GeolocationPosition num))
  (t1 t2 : Tracking num) :
  lastPositionRef t1 = lastPositionRef t2 ->
  speedHistoryRef t1 = speedHistoryRef t2 ->
  (fixes <> [] ->
   speed (onPositions t1 fixes) = speed (onPositions t2 fixes))
  /\ lastPositionRef (onPositions t1 fixes)
     = lastPositionRef (onPositions t2 fixes)
  /\ speedHistoryRef (onPositions t1 fixes)
     = speedHistoryRef (onPositions t2 fixes).
Proof.
  induction fixes as [| p front IH] using rev_ind; intros Hl Hh.
  - split; [congruence | split; assumption].
  - destruct (IH Hl Hh) as [_ [Hl' Hh']].
    rewrite !onPositions_snoc.
    destruct (onPosition_reads_memory _ _ p Hl' Hh') as [Hs [Hl'' Hh'']].
    split; [intros _; exact Hs | split; assumption].
Qed.

(** The sample pushed for a fix that reports a speed [v >= 0]. *)
Lemma raw_of_reported_speed (last : option (Position num))
  (p : GeolocationPosition num) (v : num) :
  coords_speed p = Some v -> num_geb v (num_int 0) = true ->
  Math_max (num_int 0) (currentSpeed last p (positionOf p))
  = Math_max (num_int 0) (num_mul v (num_literal 2237 (-3))).
Proof.
  intros Hv Hpos. unfold currentSpeed. rewrite Hv, Hpos. reflexivity.
Qed.

Lemma window_of_reported_speed (fixes : list (GeolocationPosition num))
  (t : Tracking num) (v : num) :
  num_geb v (num_int 0) = true ->
  (forall p, In p fixes -> coords_speed p = Some v) ->
  speedHistoryRef (onPositions t fixes)
  = fst (pushAll (speedHistoryRef t)
           (repeat (Math_max (num_int 0) (num_mul v (num_literal 2237 (-3))))
                   (length fixes))).
Proof.
  intros Hpos. revert t.
  induction fixes as [| p rest IH]; intros t Hall.
  - reflexivity.
  - change (onPositions t (p :: rest)) with (onPositions (onPosition t p) rest).
    rewrite IH by (intros q Hq; apply Hall; right; exact Hq).
    cbn [onPosition speedHistoryRef length repeat pushAll fst].
    rewrite (raw_of_reported_speed _ p v)
      by (auto; apply Hall; left; reflexivity).
    reflexivity.
Qed.

(** Five or more fixes in a row that report the same speed [v >= 0]:
    the window is five copies of the sample, and the speed is the
    smoothed value of that window. *)
Lemma steady_window (t : Tracking num)
  (fixes : list (GeolocationPosition num)) (v : num) :
  (length (speedHistoryRef t) <= 5)%nat ->
  num_geb v (num_int 0) = true ->
  (forall p, In p fixes -> coords_speed p = Some v) ->
  (5 <= length fixes)%nat ->
  let x := Math_max (num_int 0) (num_mul v (num_literal 2237 (-3))) in
  speedHistoryRef (onPositions t fixes) = repeat x 5
  /\ speed (onPositions t fixes) = snd (smoothSpeed (repeat x 4) x).
Proof.
  intros Hlen Hpos Hall Hn. cbv zeta.
  destruct (exists_last (l := fixes)) as [front [p Hsplit]].
  { intros ->. simpl in Hn. lia. }
  subst fixes. rewrite length_app in Hn. simpl in Hn.
  rewrite onPositions_snoc.
  assert (Hfront : forall q, In q front -> coords_speed q = Some v)
    by (intros q Hq; apply Hall; apply in_or_app; left; exact Hq).
  assert (Hp : coords_speed p = Some v)
    by (apply Hall; apply in_or_app; right; left; reflexivity).
  cbn [onPosition speedHistoryRef speed smoothSpeed fst snd].
  rewrite (raw_of_reported_speed _ p v Hp Hpos).
  rewrite (window_of_reported_speed front t v Hpos Hfront).
  rewrite window_of_constant_run by (first [exact Hlen | lia]).
  split; reflexivity.
Qed.

End Sessions.

(** X6.  After [startTracking], in any arithmetic, the speed, the window
    and the last fix that result from a run of fixes depend on those
    fixes only, not on anything recorded before the start; the maximum is
    carried over by [startTracking].  The first fix of a session that
    reports no speed shows 0, in exact arithmetic and in binary64. *)
Theorem sessions_do_not_mix :
  (forall (num : Type) (J : JSNumber num) (t1 t2 : Tracking num)
          (fixes : list (GeolocationPosition num)),
     geolocation t1 = true ->
     geolocation t2 = true ->
     (fixes <> [] ->
      speed (onPositions (startTracking t1) fixes)
      = speed (onPositions (startTracking t2) fixes))
     /\ speedHistoryRef (onPositions (startTracking t1) fixes)
        = speedHistoryRef (onPositions (startTracking t2) fixes)
     /\ lastPositionRef (onPositions (startTracking t1) fixes)
        = lastPositionRef (onPositions (startTracking t2) fixes)
     /\ maxSpeed (startTracking t1) = maxSpeed t1)
  /\ (forall (t : Tracking R) (p : GeolocationPosition R),
        geolocation t = true ->
        coords_speed p = None ->
        speed (onPosition (startTracking t) p) = 0)
  /\ (forall (m : MathLibrary) (t : Tracking float)
             (p : GeolocationPosition float),
        geolocation t = true ->
        coords_speed p = None ->
        speed (onPosition (H := binary64_js m) (startTracking t) p)
        = 0%float).
Proof.
  split; [| split].
  - intros num J t1 t2 fixes H1 H2.
    assert (Hl : lastPositionRef (startTracking t1)
                 = lastPositionRef (startTracking t2))
      by (unfold startTracking; rewrite H1, H2; reflexivity).
    assert (Hh : speedHistoryRef (startTracking t1)
                 = speedHistoryRef (startTracking t2))
      by (unfold startTracking; rewrite H1, H2; reflexivity).
    destruct (onPositions_reads_memory fixes _ _ Hl Hh) as [Hs [Hl' Hh']].
    split; [exact Hs |]. split; [exact Hh' |]. split; [exact Hl' |].
    apply maxSpeed_startTracking.
  - intros t p Hgeo Hnone. unfold startTracking. rewrite Hgeo.
    cbn [negb onPosition speed lastPositionRef speedHistoryRef].
    unfold currentSpeed. rewrite Hnone. real_arith.
    rewrite Rmax_left by lra.
    unfold smoothSpeed, weightedSum, totalWeight. simpl. field.
  - intros m t p Hgeo Hnone. unfold startTracking. rewrite Hgeo.
    cbn [negb onPosition speed lastPositionRef speedHistoryRef].
    unfold currentSpeed. rewrite Hnone. reflexivity.
Qed.

Lemma sessions_do_not_mix_witness :
  speed (onPositions (startTracking (initialTracking true)) [fix_10mps])
  = speed (onPositions
             (startTracking (onPosition (initialTracking true) fix_10mps))
             [fix_10mps]).
Proof.
  apply (proj1 (proj1 sessions_do_not_mix R real_js (initialTracking true)
                  (onPosition (initialTracking true) fix_10mps)
                  [fix_10mps] eq_refl eq_refl)).
  discriminate.
Defined.

(** X7.  From a window of at most five samples, whatever they are, five
    or more fixes in a row that all report the same speed [v >= 0] leave
    the window filled with [Math.max(0, v * 2.237)], in any arithmetic,
    and the speed shown is the smoothed value of that window.  In exact
    arithmetic the speed is exactly [v * 2.237].  In binary64 the speed
    and the samples are then numbers that are at least 0: a NaN that was
    in the window is gone. *)
Theorem steady_reported_speed_is_shown :
  (forall (num : Type) (J : JSNumber num) (t : Tracking num)
          (fixes : list (GeolocationPosition num)) (v : num),
     (length (speedHistoryRef t) <= 5)%nat ->
     num_geb v (num_int 0) = true ->
     (forall p, In p fixes -> coords_speed p = Some v) ->
     (5 <= length fixes)%nat ->
     let x := Math_max (num_int 0) (num_mul v (num_literal 2237 (-3))) in
     speedHistoryRef (onPositions t fixes) = repeat x 5
     /\ speed (onPositions t fixes) = snd (smoothSpeed (repeat x 4) x))
  /\ (forall (t : Tracking R) (fixes : list (GeolocationPosition R)) (v : R),
        (length (speedHistoryRef t) <= 5)%nat ->
        0 <= v ->
        (forall p, In p fixes -> coords_speed p = Some v) ->
        (5 <= length fixes)%nat ->
        speed (onPositions t fixes) = v * 2.237
        /\ speedHistoryRef (onPositions t fixes) = repeat (v * 2.237) 5)
  /\ (forall (m : MathLibrary) (t : Tracking float)
             (fixes : list (GeolocationPosition float)) (v : float),
        (length (speedHistoryRef t) <= 5)%nat ->
        PrimFloat.leb 0 v = true ->
        (forall p, In p fixes -> coords_speed p = Some v) ->
        (5 <= length fixes)%nat ->
        let t' := onPositions (H := binary64_js m) t fixes in
        PrimFloat.leb 0 (speed t') = true
        /\ (forall x, In x (speedHistoryRef t') -> PrimFloat.leb 0 x = true)).
Proof.
  split; [| split].
  - intros num J t fixes v. apply steady_window.
  - intros t fixes v Hlen Hpos Hall Hn.
    destruct (steady_window (H := real_js) t fixes v Hlen
                (Rge_bool_true _ _ Hpos) Hall Hn) as [Hw Hs].
    revert Hw Hs. real_arith.
    rewrite Rmax_right by nra. intros Hw Hs.
    split; [| exact Hw].
    rewrite Hs. unfold smoothSpeed, weightedSum, totalWeight. simpl. field.
  - intros m t fixes v Hlen Hpos Hall Hn. cbv zeta.
    destruct (steady_window (H := binary64_js m) t fixes v Hlen Hpos Hall Hn)
      as [Hw Hs].
    cbn [Math_max num_int num_literal num_mul binary64_js js_arith
         binary64_number] in Hw, Hs.
    change (float_literal 0 0) with 0%float in Hw, Hs.
    change (float_literal 2237 (-3)) with 2.237%float in Hw, Hs.
    assert (Hx : PrimFloat.leb 0 (Math_max64 0 (v * 2.237)%float) = true)
      by (apply clamp_reported_binary64; exact Hpos).
    rewrite Hw, Hs. split.
    + apply smoothSpeed_nonneg_binary64; [simpl; lia |].
      intros s Hs'. cbn in Hs'.
      repeat (destruct Hs' as [<- | Hs']; [exact Hx |]). destruct Hs'.
    + intros x Hin. apply repeat_spec in Hin. subst x. exact Hx.
Qed.

Lemma steady_reported_speed_is_shown_witness :
  let t := tracking (run (H := excerpt_js)
                       (initialState (H := excerpt_js) true)
                       [ClickStartTracking;
                        WatchPosition 0 antipode_fix_a;
                        WatchPosition 0 antipode_fix_b]) in
  speed t = PrimFloat.nan
  /\ PrimFloat.leb 0
       (speed (onPositions (H := excerpt_js) t (repeat antipode_fix_10mps 5)))
     = true.
Proof.
  cbv zeta. split; [vm_compute; reflexivity |].
  apply (proj2 (proj2 steady_reported_speed_is_shown) Math_excerpt)
    with (v := 10%float).
  - vm_compute. lia.
  - reflexivity.
  - intros p Hp. apply repeat_spec in Hp. rewrite Hp. reflexivity.
  - simpl. lia.
Defined.

(** ** The maximum against the current speed *)

Section MaximumDominates64.
Variable m : MathLibrary.
#[local] Hint Extern 0 (JSNumber float) =>
  exact (binary64_js m) : typeclass_instances.
Local Open Scope float_scope.

Lemma onPosition_speed_le_max_binary64 (t : Tracking float)
  (position : GeolocationPosition float) :
  is_nan (maxSpeed (onPosition t position)) = true
  \/ (speed (onPosition t position) <=? maxSpeed (onPosition t position))
     = true.
Proof.
  cbn [onPosition maxSpeed speed Math_max binary64_js].
  match goal with
  | |- is_nan (Math_max64 ?p ?q) = true \/ _ =>
      destruct (is_nan p) eqn:Hp;
        [left; rewrite Math_max64_nan by (left; exact Hp); reflexivity |];
      destruct (is_nan q) eqn:Hq;
        [left; rewrite Math_max64_nan by (right; exact Hq); reflexivity |];
      right; apply Math_max64_ge_r; assumption
  end.
Qed.

Lemma run_speed_le_max_binary64 (events : list (Event float))
  (s : State float) :
  reachable s ->
  is_nan (maxSpeed (tracking s)) = true
  \/ (speed (tracking s) <=? maxSpeed (tracking s)) = true ->
  (forall e, In e events -> e <> ClickResetMaxSpeed) ->
  is_nan (maxSpeed (tracking (run s events))) = true
  \/ (speed (tracking (run s events)) <=? maxSpeed (tracking (run s events)))
     = true.
Proof.
  revert s. induction events as [| e rest IH]; intros s Hs Hinv Hno.
  - exact Hinv.
  - cbn [run fold_left].
    apply IH;
      [ apply reachable_step; exact Hs
      | | intros e' He'; apply Hno; right; exact He' ].
    assert (Hne : e <> ClickResetMaxSpeed) by (apply Hno; left; reflexivity).
    destruct (reachable_never_negative64 m s Hs) as (_ & Hm & _).
    unfold step. destruct (enabled s e); [| exact Hinv].
    destruct e; cbn [handle with_tracking with_capture tracking];
      try exact Hinv; try congruence.
    + unfold startTracking.
      destruct (negb (geolocation (tracking s))); exact Hinv.
    + cbn [stopTracking speed maxSpeed num_int num_literal binary64_js].
      change (float_literal 0 0) with 0.
      apply not_negative_cases. exact Hm.
    + apply onPosition_speed_le_max_binary64.
Qed.

End MaximumDominates64.

(** X8.  In binary64, with any implementation of the [Math] functions:
    after every fix the maximum is NaN or at least the speed shown, and
    the same holds after every run of events from the initial state that
    contains no click on Reset Max Speed; a click on Reset Max Speed in
    the main view while the speed is positive sets the maximum to 0,
    below the speed still shown (until the next fix). *)
Theorem maximum_dominates_until_reset :
  (forall (m : MathLibrary) (t : Tracking float)
          (position : GeolocationPosition float),
     let t' := onPosition (H := binary64_js m) t position in
     PrimFloat.is_nan (maxSpeed t') = true
     \/ PrimFloat.leb (speed t') (maxSpeed t') = true)
  /\ (forall (m : MathLibrary) (supported : bool)
             (events : list (Event float)),
        (forall e, In e events -> e <> ClickResetMaxSpeed) ->
        let t := tracking (run (H := binary64_js m)
                             (initialState (H := binary64_js m) supported)
                             events) in
        PrimFloat.is_nan (maxSpeed t) = true
        \/ PrimFloat.leb (speed t) (maxSpeed t) = true)
  /\ (forall (m : MathLibrary) (s : State float),
        isCameraActive (capture s) = false ->
        PrimFloat.eqb (maxSpeed (tracking s)) 0 = false ->
        PrimFloat.ltb 0 (speed (tracking s)) = true ->
        let t := tracking (step (H := binary64_js m) s ClickResetMaxSpeed) in
        maxSpeed t = 0%float
        /\ PrimFloat.ltb (maxSpeed t) (speed t) = true).
Proof.
  split; [exact onPosition_speed_le_max_binary64 |]. split.
  - intros m supported events Hno. cbv zeta.
    apply run_speed_le_max_binary64;
      [constructor | right; reflexivity | exact Hno].
  - intros m s Hcam Hmax Hsp. cbv zeta.
    unfold step, enabled. rewrite Hcam.
    cbn [negb andb num_eqb binary64_js num_int num_literal].
    change (float_literal 0 0) with 0%float. rewrite Hmax.
    cbn. split; [reflexivity | exact Hsp].
Qed.

Lemma maximum_dominates_until_reset_witness :
  let t := tracking (run (H := excerpt_js)
                       (initialState (H := excerpt_js) true)
                       [ClickStartTracking;
                        WatchPosition 0 antipode_fix_10mps;
                        ClickStopTracking]) in
  PrimFloat.is_nan (maxSpeed t) = true
  \/ PrimFloat.leb (speed t) (maxSpeed t) = true.
Proof.
  apply (proj1 (proj2 maximum_dominates_until_reset) Math_excerpt true
           [ClickStartTracking; WatchPosition 0 antipode_fix_10mps;
            ClickStopTracking]).
  intros e [<- | [<- | [<- | []]]]; discriminate.
Defined.

(** ** The dial: percentage, needle, arc and markers *)

Section Binary64Min.
Local Open Scope float_scope.

Lemma Math_min64_nan (x y : float) :
  is_nan x = true \/ is_nan y = true -> Math_min64 x y = nan.
Proof.
  intros Hn. unfold Math_min64.
  destruct Hn as [-> | ->]; [| rewrite orb_true_r]; reflexivity.
Qed.

Lemma Math_min64_le_r (x y : float) :
  is_nan x = false -> is_nan y = false ->
  (Math_min64 x y <=? y) = true.
Proof.
  intros Hx Hy. unfold Math_min64. rewrite Hx, Hy. cbn [orb].
  destruct (x <? y) eqn:Hlt; [apply ltb_leb, Hlt |].
  destruct (x =? y) eqn:Heq; [| apply leb_refl, Hy].
  destruct (get_sign x); [apply eqb_leb, Heq | apply leb_refl, Hy].
Qed.

Lemma Math_min64_nonneg (x y : float) :
  (0 <=? x) = true -> (0 <=? y) = true -> (0 <=? Math_min64 x y) = true.
Proof.
  intros Hx Hy. unfold Math_min64.
  destruct (leb_not_nan _ _ Hx) as [_ ->].
  destruct (leb_not_nan _ _ Hy) as [_ ->]. cbn [orb].
  destruct (x <? y); [exact Hx |].
  destruct (x =? y); [| exact Hy].
  destruct (get_sign x); assumption.
Qed.

Lemma displaySpeed_nan_binary64 (m : MathLibrary) (u : Unit) :
  displaySpeed (H := binary64_js m) u nan = nan.
Proof. destruct u; reflexivity. Qed.

Lemma displaySpeed_nonneg_binary64 (m : MathLibrary) (u : Unit) (v : float) :
  (0 <=? v) = true -> (0 <=? displaySpeed (H := binary64_js m) u v) = true.
Proof.
  intros Hv. destruct u; [exact Hv |].
  cbn [displaySpeed num_mul num_literal binary64_js js_arith binary64_number].
  apply nonneg64_mul; [exact Hv | reflexivity].
Qed.

Lemma speedPercentage_nan_binary64 (m : MathLibrary) (u : Unit) :
  speedPercentage (H := binary64_js m) u nan = nan.
Proof.
  unfold speedPercentage. rewrite displaySpeed_nan_binary64. reflexivity.
Qed.

Lemma speedPercentage_range_binary64 (m : MathLibrary) (u : Unit) (v : float) :
  (0 <=? v) = true ->
  (0 <=? speedPercentage (H := binary64_js m) u v) = true
  /\ (speedPercentage (H := binary64_js m) u v <=? 100) = true.
Proof.
  intros Hv. pose proof (displaySpeed_nonneg_binary64 m u v Hv) as Hd.
  unfold speedPercentage, maxDisplaySpeed.
  cbn [Math_min num_mul num_div num_int num_literal binary64_js js_arith
       binary64_number].
  change (float_literal 200 0) with 200.
  change (float_literal 100 0) with 100.
  assert (Hp : (0 <=? displaySpeed (H := binary64_js m) u v / 200 * 100)
               = true).
  { apply nonneg64_mul; [| reflexivity].
    apply nonneg64_div; [exact Hd | reflexivity]. }
  split.
  - apply Math_min64_nonneg; [exact Hp | reflexivity].
  - apply Math_min64_le_r; [| reflexivity].
    destruct (leb_not_nan _ _ Hp) as [_ Hn]. exact Hn.
Qed.

End Binary64Min.

Lemma displaySpeed_nonneg (u : Unit) (v : R) : 0 <= v -> 0 <= displaySpeed u v.
Proof. intros Hv. destruct u; cbn [displaySpeed]; real_arith; lra. Qed.

Lemma displaySpeed_monotone (u : Unit) (v w : R) :
  v <= w -> displaySpeed u v <= displaySpeed u w.
Proof. intros Hvw. destruct u; cbn [displaySpeed]; real_arith; lra. Qed.

Lemma speedPercentage_cases (u : Unit) (v : R) :
  (displaySpeed u v <= 200 -> speedPercentage u v = displaySpeed u v / 2)
  /\ (200 <= displaySpeed u v -> speedPercentage u v = 100).
Proof.
  unfold speedPercentage, maxDisplaySpeed.
  cbn [Math_min num_mul num_div num_int num_literal real_js js_arith
       real_number real_literal].
  split; intros Hd.
  - rewrite Rmin_left by lra. lra.
  - rewrite Rmin_right by lra. reflexivity.
Qed.

(** X9.  With real numbers in place of JavaScript's (exact arithmetic):
    the dial percentage is [displaySpeed / 2] up to a displayed 200 and
    100 from there on; it is monotone in the speed, lies in [0, 100] for a
    non-negative speed and is negative for a negative one (there is no
    lower clamp); km/h is 1.609344 times mph; for a non-negative speed the
    needle rotation lies in [-90, 90] degrees and the dash length in
    [0, 282.7].  In binary64, where each operation rounds: the percentage
    of a NaN speed is NaN; the percentage of a speed [>= 0] (infinity
    included) is between 0 and 100; and the percentage at 110 mph is
    55.00000000000001, not 55. *)
Theorem dial_follows_display_speed :
  (forall (u : Unit) (v w : R),
     (0 <= v -> 0 <= speedPercentage u v <= 100)
     /\ (v <= w -> speedPercentage u v <= speedPercentage u w)
     /\ (speedPercentage u v = 100 <-> 200 <= displaySpeed u v)
     /\ (displaySpeed u v <= 200 -> speedPercentage u v = displaySpeed u v / 2)
     /\ displaySpeed kmh v = 1.609344 * displaySpeed mph v
     /\ (0 <= v -> -90 <= needleRotation (speedPercentage u v) <= 90)
     /\ (0 <= v ->
         0 <= fst (strokeDasharray (speedPercentage u v))
           <= snd (strokeDasharray (speedPercentage u v)))
     /\ (v < 0 -> speedPercentage u v < 0))
  /\ (forall (m : MathLibrary) (u : Unit),
        speedPercentage (H := binary64_js m) u PrimFloat.nan = PrimFloat.nan)
  /\ (forall (m : MathLibrary) (u : Unit) (v : float),
        PrimFloat.leb 0 v = true ->
        PrimFloat.leb 0 (speedPercentage (H := binary64_js m) u v) = true
        /\ PrimFloat.leb (speedPercentage (H := binary64_js m) u v) 100
           = true)
  /\ (forall m : MathLibrary,
        speedPercentage (H := binary64_js m) mph 110%float
        = 55.00000000000001%float
        /\ PrimFloat.eqb (speedPercentage (H := binary64_js m) mph 110%float)
                         55%float = false).
Proof.
  split; [| split; [exact speedPercentage_nan_binary64 |
                    split; [exact speedPercentage_range_binary64 |
                            intros m; split; vm_compute; reflexivity]]].
  intros u v w.
  destruct (speedPercentage_cases u v) as [Hlow Hhigh].
  assert (Hrange : 0 <= v -> 0 <= speedPercentage u v <= 100).
  { intros Hv. pose proof (displaySpeed_nonneg u v Hv) as Hd.
    destruct (Rle_lt_dec (displaySpeed u v) 200) as [Hle | Hgt].
    - rewrite (Hlow Hle). lra.
    - rewrite Hhigh by lra. lra. }
  split; [exact Hrange |]. split.
  - intros Hvw. pose proof (displaySpeed_monotone u v w Hvw) as Hd.
    unfold speedPercentage, maxDisplaySpeed. real_arith.
    apply Rle_min_compat_r. lra.
  - split.
    + split.
      * intros H100.
        destruct (Rle_lt_dec 200 (displaySpeed u v)) as [Hge | Hlt];
          [exact Hge |].
        rewrite Hlow in H100 by lra. lra.
      * exact Hhigh.
    + split; [exact Hlow |].
      split; [cbn [displaySpeed]; real_arith; ring |]. split.
      * intros Hv. specialize (Hrange Hv). unfold needleRotation.
        real_arith. lra.
      * split.
        -- intros Hv. specialize (Hrange Hv). unfold strokeDasharray.
           cbn [fst snd]. real_arith. lra.
        -- intros Hneg.
           assert (Hd : displaySpeed u v < 0)
             by (destruct u; cbn [displaySpeed]; real_arith; lra).
           rewrite Hlow by lra. lra.
Qed.

Lemma dial_follows_display_speed_witness :
  PrimFloat.leb 0 (speedPercentage (H := excerpt_js) kmh 100%float) = true
  /\ PrimFloat.leb (speedPercentage (H := excerpt_js) kmh 100%float) 100
     = true.
Proof.
  apply (proj1 (proj2 (proj2 dial_follows_display_speed)) Math_excerpt kmh).
  reflexivity.
Defined.

(** X10.  Compared as rotation angles.  With real numbers in place of
    JavaScript's (exact arithmetic): the needle for the speed printed at
    marker [i] is rotated by half of that marker's angle from the start
    of the scale; its angle is the marker's own only at 0, and is the
    angle of the marker of half the speed (200 gives the angle of the 100
    mark); the markers of 0 and 200 are a full turn apart, and the
    labelled markers are those of 0, 50, 100, 150 and 200.  In binary64
    the needle is within 1e-13 degrees of that half angle at each of the
    21 markers, and not always equal to it: at 140 mph it is
    35.999999999999986, not 36. *)
Theorem needle_against_markers :
  (forall i, (i <= 20)%nat ->
     needleRotation (speedPercentage mph (markerSpeed i))
     = (markerAngle i - 90) / 2)
  /\ (forall i, (i <= 20)%nat ->
        (needleRotation (speedPercentage mph (markerSpeed i)) = markerAngle i
         <-> i = 0%nat))
  /\ (forall j, (j <= 10)%nat ->
        needleRotation (speedPercentage mph (markerSpeed (2 * j)))
        = markerAngle j)
  /\ markerAngle 20 = markerAngle 0 + 360
  /\ (forall i, In i markerIndices ->
        (isMainMark i = true
         <-> In (markerSpeed i) [0; 50; 100; 150; 200]))
  /\ (forall m : MathLibrary,
        forallb
          (fun i =>
             PrimFloat.leb
               (PrimFloat.abs
                  (needleRotation (H := binary64_js m)
                     (speedPercentage (H := binary64_js m) mph
                        (markerSpeed (H := binary64_js m) i))
                   - (markerAngle (H := binary64_js m) i - 90) / 2)%float)
               1e-13%float)
          markerIndices = true)
  /\ (forall m : MathLibrary,
        needleRotation (H := binary64_js m)
          (speedPercentage (H := binary64_js m) mph
             (markerSpeed (H := binary64_js m) 14))
        = 35.999999999999986%float
        /\ ((markerAngle (H := binary64_js m) 14 - 90) / 2)%float
           = 36%float).
Proof.
  assert (Hneedle : forall i, (i <= 20)%nat ->
            needleRotation (speedPercentage mph (markerSpeed i))
            = (markerAngle i - 90) / 2).
  { intros i Hi. unfold markerSpeed, markerAngle, needleRotation.
    assert (Hr : INR i <= 20)
      by (replace 20 with (INR 20) by (simpl; lra); apply le_INR; exact Hi).
    rewrite (proj1 (speedPercentage_cases mph (num_of_nat i * num_int 10)%js))
      by (cbn [displaySpeed]; real_arith; lra).
    cbn [displaySpeed]. real_arith. lra. }
  split; [exact Hneedle |]. split.
  - intros i Hi. rewrite (Hneedle i Hi). unfold markerAngle. real_arith.
    split.
    + intros Heq. assert (Hz : INR i = 0) by lra.
      destruct i; [reflexivity |]. rewrite S_INR in Hz.
      pose proof (pos_INR i). lra.
    + intros ->. simpl. lra.
  - split.
    + intros j Hj. rewrite (Hneedle (2 * j)%nat) by lia.
      unfold markerAngle. real_arith. rewrite mult_INR. simpl. lra.
    + split; [unfold markerAngle; real_arith; simpl; lra |].
      split; [| split; intros m; [| split]; vm_compute; reflexivity].
      intros i Hi. unfold markerIndices in Hi. apply in_seq in Hi.
      assert (Hcases : (i < 21)%nat) by lia.
      do 21 (destruct i as [| i];
             [unfold isMainMark, markerSpeed; real_arith; simpl; split;
              [ intros H; try discriminate H; lra
              | intros H; try reflexivity;
                repeat (destruct H as [H | H]; [try lra |]); try tauto ]
             |]).
      lia.
Qed.

Lemma needle_against_markers_witness :
  needleRotation (speedPercentage mph (markerSpeed (2 * 5))) = markerAngle 5.
Proof.
  apply (proj1 (proj2 (proj2 needle_against_markers)) 5%nat). lia.
Defined.

(** ** The overlay drawn on the canvas *)

Lemma orDefault_ge_1 (n : nat) (d : R) : 1 <= d -> 1 <= orDefault n d.
Proof.
  intros Hd. unfold orDefault. destruct (Nat.eqb_spec n 0) as [-> | Hn].
  - exact Hd.
  - replace 1 with (INR 1) by reflexivity. apply le_INR. lia.
Qed.

Lemma overlaySize_bounds (i : OverlayInput) :
  0.25 <= overlaySize i
  /\ overlaySize i <= canvasWidth i * 0.25
  /\ overlaySize i <= canvasHeight i * 0.25.
Proof.
  unfold overlaySize.
  pose proof (orDefault_ge_1 (videoWidth i) 1920 ltac:(lra)) as Hw.
  pose proof (orDefault_ge_1 (videoHeight i) 1080 ltac:(lra)) as Hh.
  fold (canvasWidth i) in Hw. fold (canvasHeight i) in Hh.
  pose proof (Rmin_l (canvasWidth i) (canvasHeight i)).
  pose proof (Rmin_r (canvasWidth i) (canvasHeight i)).
  assert (1 <= Rmin (canvasWidth i) (canvasHeight i))
    by (apply Rmin_glb; assumption).
  lra.
Qed.

Lemma arcAngle_cases (i : OverlayInput) :
  (displaySpeed (overlayUnit i) (overlaySpeed i) <= 200 ->
   arcAngle i = displaySpeed (overlayUnit i) (overlaySpeed i) / 200 * 2 * PI)
  /\ (200 <= displaySpeed (overlayUnit i) (overlaySpeed i) ->
      arcAngle i = 2 * PI).
Proof.
  unfold arcAngle. split; intros Hd.
  - rewrite Rmin_left by lra. field.
  - rewrite Rmin_right by lra. field.
Qed.

(** X11.  [drawSpeedometerOverlay] draws nothing when the canvas, the
    video or the 2d context is missing; on a canvas whose smaller side is
    at least 240 it makes 24 calls, the speed arc among them.  The
    sweep of the speed arc is the dial percentage of a full turn: within
    [0, 2 PI] for a non-negative speed, a full turn exactly from a
    displayed 200.  A video size of 0 falls back to 1920 x 1080.  On a
    canvas of at least 40 x 40 the background square lies inside the
    canvas, and the ring always lies inside that square; the ring's radius
    is non-negative exactly when the smaller side is at least 160, the
    arc's exactly when it is at least 240. *)
Theorem overlay_guards_and_geometry (i : OverlayInput) :
  (canvasMounted i = false \/ videoMounted i = false
   \/ contextAvailable i = false ->
   drawSpeedometerOverlay i = [])
  /\ (canvasMounted i = true -> videoMounted i = true ->
      contextAvailable i = true ->
      240 <= Rmin (canvasWidth i) (canvasHeight i) ->
      length (drawSpeedometerOverlay i) = 24%nat
      /\ In (Arc (centerX i) (centerY i) (dialRadius i - 10)
                 (- PI / 2) (- PI / 2 + arcAngle i))
            (drawSpeedometerOverlay i))
  /\ arcAngle i
     = speedPercentage (overlayUnit i) (overlaySpeed i) / 100 * 2 * PI
  /\ (0 <= overlaySpeed i -> 0 <= arcAngle i <= 2 * PI)
  /\ (arcAngle i = 2 * PI
      <-> 200 <= displaySpeed (overlayUnit i) (overlaySpeed i))
  /\ (videoWidth i = 0%nat -> canvasWidth i = 1920)
  /\ (videoHeight i = 0%nat -> canvasHeight i = 1080)
  /\ (40 <= canvasWidth i -> 40 <= canvasHeight i ->
      0 <= overlayX i - 10
      /\ overlayX i - 10 + (overlaySize i + 20) <= canvasWidth i
      /\ 0 <= overlayY - 10
      /\ overlayY - 10 + (overlaySize i + 20) <= canvasHeight i)
  /\ (overlayX i <= centerX i - dialRadius i
      /\ centerX i + dialRadius i <= overlayX i + overlaySize i
      /\ overlayY <= centerY i - dialRadius i
      /\ centerY i + dialRadius i <= overlayY + overlaySize i)
  /\ (0 <= dialRadius i
      <-> 160 <= Rmin (canvasWidth i) (canvasHeight i))
  /\ (0 <= dialRadius i - 10
      <-> 240 <= Rmin (canvasWidth i) (canvasHeight i)).
Proof.
  pose proof (overlaySize_bounds i) as (Hs0 & Hsw & Hsh).
  pose proof PI_RGT_0 as Hpi.
  destruct (arcAngle_cases i) as [Hlow Hhigh].
  split.
  { intros Hoff. unfold drawSpeedometerOverlay.
    destruct (canvasMounted i), (videoMounted i), (contextAvailable i);
      try reflexivity.
    destruct Hoff as [H | [H | H]]; discriminate H. }
  split.
  { intros Hc Hv Hx _. unfold drawSpeedometerOverlay. rewrite Hc, Hv, Hx.
    cbn [negb orb]. split; [reflexivity |].
    do 13 right. left. reflexivity. }
  split; [unfold arcAngle, speedPercentage, maxDisplaySpeed; reflexivity |].
  split.
  { intros Hv.
    assert (0 <= displaySpeed (overlayUnit i) (overlaySpeed i))
      by (apply displaySpeed_nonneg; exact Hv).
    destruct (Rle_lt_dec (displaySpeed (overlayUnit i) (overlaySpeed i)) 200).
    - rewrite Hlow by assumption. split; nra.
    - rewrite Hhigh by lra. lra. }
  split.
  { split; [| exact Hhigh]. intros H2pi.
    destruct (Rle_lt_dec 200 (displaySpeed (overlayUnit i) (overlaySpeed i)))
      as [Hge | Hlt]; [exact Hge |].
    rewrite Hlow in H2pi by lra. nra. }
  split; [intros H0; unfold canvasWidth, orDefault; rewrite H0; reflexivity |].
  split; [intros H0; unfold canvasHeight, orDefault; rewrite H0; reflexivity |].
  unfold centerX, centerY, dialRadius in *. unfold overlayX, overlayY in *.
  split; [intros Hw Hh; repeat split; lra |].
  split; [repeat split; lra |].
  unfold overlaySize.
  split; split; intros H; lra.
Qed.

Lemma overlay_guards_and_geometry_witness :
  length (drawSpeedometerOverlay
            {| canvasMounted := true; videoMounted := true;
               contextAvailable := true; videoWidth := 0; videoHeight := 0;
               overlayUnit := mph; overlaySpeed := 30;
               overlayConnected := true |}) = 24%nat.
Proof.
  apply (proj1 (proj2 (overlay_guards_and_geometry _)));
    try reflexivity.
  unfold canvasWidth, canvasHeight, orDefault, Rmin.
  cbn [videoWidth videoHeight Nat.eqb].
  destruct (Rle_dec 1920 1080); lra.
Defined.

(** ** The second component against the first *)

Lemma step_eventOf {num : Type} `{JSNumber num}
  (s1 : State num) (s2 : State2 num) (e : Event2 num) :
  tracking s1 = tracking2 s2 ->
  displayUnit s1 = displayUnit2 s2 ->
  capture s1 = initialCapture ->
  tracking (step s1 (eventOf e)) = tracking2 (step2 s2 e)
  /\ displayUnit (step s1 (eventOf e)) = displayUnit2 (step2 s2 e)
  /\ capture (step s1 (eventOf e)) = initialCapture.
Proof.
  intros Ht Hu Hc. unfold step, step2.
  assert (Hen : enabled s1 (eventOf e) = enabled2 s2 e).
  { unfold enabled, enabled2. rewrite Hc, Ht. destruct e; reflexivity. }
  rewrite Hen. destruct (enabled2 s2 e).
  - destruct e; cbn [eventOf handle handle2 with_tracking tracking capture
                     displayUnit tracking2 displayUnit2];
      rewrite ?Ht, ?Hu; repeat split; assumption.
  - repeat split; assumption.
Qed.

(** X13.  The second component behaves as the first one does when the
    camera is never used: delivered the same clicks and watch callbacks,
    both have the same tracking state and unit, the first one's capture
    half stays initial, and the cleanup of either leaves no watch
    registered. *)
Theorem second_component_is_the_tracking_half {num : Type} `{JSNumber num}
  (supported : bool) (events : list (Event2 num)) :
  let s1 := run (initialState supported) (map eventOf events) in
  let s2 := run2 (initialState2 supported) events in
  tracking s1 = tracking2 s2
  /\ displayUnit s1 = displayUnit2 s2
  /\ capture s1 = initialCapture
  /\ tracking2 (unmount2 s2) = tracking (unmount s1)
  /\ watches (tracking2 (unmount2 s2)) = [].
Proof.
  cbv zeta.
  assert (Hsim :
    tracking (run (initialState supported) (map eventOf events))
    = tracking2 (run2 (initialState2 supported) events)
    /\ displayUnit (run (initialState supported) (map eventOf events))
       = displayUnit2 (run2 (initialState2 supported) events)
    /\ capture (run (initialState supported) (map eventOf events))
       = initialCapture);
    [| destruct Hsim as [Ht [Hu Hc]];
       split; [exact Ht |]; split; [exact Hu |]; split; [exact Hc |];
       split;
       [ cbn [unmount2 unmount tracking2 tracking]; rewrite Ht; reflexivity
       | cbn [unmount2 tracking2 watches]; rewrite <- Ht;
         destruct (reachable_idle_consistent _
                     (reachable_run (initialState supported)
                        (map eventOf events) (reachable_initial supported)))
           as [Hw _];
         rewrite Hw;
         destruct (watchIdRef
                     (tracking (run (initialState supported)
                                  (map eventOf events))));
         [unfold clearWatch; simpl; rewrite Nat.eqb_refl |]; reflexivity ] ].
  assert (Hgen : forall (s1 : State num) (s2 : State2 num),
            tracking s1 = tracking2 s2 ->
            displayUnit s1 = displayUnit2 s2 ->
            capture s1 = initialCapture ->
            tracking (run s1 (map eventOf events)) = tracking2 (run2 s2 events)
            /\ displayUnit (run s1 (map eventOf events))
               = displayUnit2 (run2 s2 events)
            /\ capture (run s1 (map eventOf events)) = initialCapture).
  { induction events as [| e rest IH]; intros s1 s2 Ht Hu Hc.
    - repeat split; assumption.
    - simpl. destruct (step_eventOf s1 s2 e Ht Hu Hc) as [Ht' [Hu' Hc']].
      apply IH; assumption. }
  apply Hgen; reflexivity.
Qed.

(** ** Who writes what *)






(** ** The camera, the recorder and the cleanup *)

Lemma length_update_nth {A : Type} (f : A -> A) (l : list A) (i : nat) :
  length (update_nth i f l) = length l.
Proof.
  revert i. induction l as [| x rest IH]; intros [| i]; simpl;
    try reflexivity.
  rewrite IH. reflexivity.
Qed.

Lemma stopRecording_frame (c : Capture) :
  isCameraActive (stopRecording c) = isCameraActive c
  /\ streamRef (stopRecording c) = streamRef c
  /\ mediaRecorderRef (stopRecording c) = mediaRecorderRef c
  /\ cameraError (stopRecording c) = cameraError c
  /\ recordedChunks (stopRecording c) = recordedChunks c
  /\ length (recorders (stopRecording c)) = length (recorders c).
Proof.
  unfold stopRecording.
  destruct (mediaRecorderRef c) eqn:Hmr; [| repeat split; assumption].
  destruct (isRecording c); [| repeat split; assumption].
  cbn. rewrite length_update_nth. repeat split.
Qed.

Lemma stopCamera_frame (c : Capture) :
  isCameraActive (stopCamera c) = false
  /\ streamRef (stopCamera c) = None
  /\ mediaRecorderRef (stopCamera c) = mediaRecorderRef c
  /\ cameraError (stopCamera c) = cameraError c
  /\ recordedChunks (stopCamera c) = recordedChunks c
  /\ length (recorders (stopCamera c)) = length (recorders c).
Proof.
  unfold stopCamera. destruct (isRecording c); [| repeat split].
  match goal with
  | |- context [stopRecording ?r] =>
      destruct (stopRecording_frame r) as (H1 & H2 & H3 & H4 & H5 & H6);
      rewrite H1, H2, H3, H4, H5, H6
  end.
  repeat split.
Qed.

Lemma reachable_camera_consistent {num : Type} `{JSNumber num} (s : State num) :
  reachable s -> camera_consistent (capture s).
Proof.
  induction 1 as [supported | s e Hs IH].
  - split; [| split].
    + cbn. split; [discriminate | intros Hn; exfalso; apply Hn; reflexivity].
    + cbn. discriminate.
    + cbn. discriminate.
  - unfold step. destruct (enabled s e) eqn:Hen; [| exact IH].
    pose proof IH as Hinv. destruct IH as [Hcam [Href Herr]].
    destruct e; cbn [handle with_tracking with_capture capture];
      try (split; [| split]; assumption).
    + (* startCamera *)
      split; [exact Hcam |]. split; [exact Href |]. cbn. discriminate.
    + (* stopCamera *)
      destruct (stopCamera_frame (capture s)) as (H1 & H2 & H3 & H4 & _ & H6).
      unfold camera_consistent. rewrite H1, H2, H3, H4, H6.
      split; [split; [discriminate | intros Hn; exfalso; apply Hn; reflexivity] |].
      split; assumption.
    + (* startRecording *)
      unfold startRecording.
      destruct (streamRef (capture s)) eqn:Hst; [| exact Hinv].
      destruct (negb (canvasRef (capture s))) eqn:Hcanvas; [exact Hinv |].
      unfold camera_consistent.
      cbn [isCameraActive streamRef mediaRecorderRef recorders cameraError].
      split.
      * split; [discriminate |]. intros _.
        unfold canvasRef in Hcanvas. apply negb_false_iff in Hcanvas.
        exact Hcanvas.
      * split; [| exact Herr].
        intros i Hi. injection Hi as <-. rewrite length_app. simpl. lia.
    + (* stopRecording *)
      destruct (stopRecording_frame (capture s)) as (H1 & H2 & H3 & H4 & _ & H6).
      unfold camera_consistent. rewrite H1, H2, H3, H4, H6.
      split; [| split]; assumption.
    + (* downloadVideo *)
      unfold downloadVideo. destruct (recordedChunks (capture s));
        [exact Hinv | split; [| split]; assumption].
    + (* getUserMedia resolved *)
      split; [split; [discriminate | reflexivity] |].
      split; [exact Href | exact Herr].
    + (* getUserMedia rejected *)
      split; [exact Hcam |]. split; [exact Href |].
      cbn. intros message Hm. injection Hm as <-. reflexivity.
    + (* a recorder's stop task *)
      unfold recorder_stop_task.
      destruct (nth_error (recorders (capture s)) recorder); [| exact Hinv].
      unfold camera_consistent.
      cbn [isCameraActive streamRef mediaRecorderRef recorders cameraError].
      split; [exact Hcam |]. split; [| exact Herr].
      rewrite length_update_nth. exact Href.
Qed.

Lemma update_nth_snoc {A : Type} (f : A -> A) (l : list A) (x : A) :
  update_nth (length l) f (l ++ [x]) = l ++ [f x].
Proof.
  induction l as [| y rest IH]; simpl; [reflexivity |].
  rewrite IH. reflexivity.
Qed.

Lemma record_cycle (c : Capture) (stream : MediaStream) (data : Blob) :
  isCameraActive c = true ->
  streamRef c = Some stream ->
  let i := length (recorders c) in
  let c1 := startRecording c in
  let c2 := stopRecording c1 in
  let c3 := recorder_stop_task c2 i data in
  isRecording c1 = true
  /\ isCameraActive c1 = true
  /\ isRecording c2 = false
  /\ isCameraActive c2 = true
  /\ nth_error (recorders c2) i
     = Some {| recording := false; stopQueued := true; chunks := [] |}
  /\ c3 = {|
       isRecording := false;
       isCameraActive := true;
       recordedChunks := finalChunks data;
       cameraError := cameraError c;
       mediaRecorderRef := Some i;
       streamRef := Some stream;
       recorders := recorders c
                    ++ [{| recording := false; stopQueued := false;
                           chunks := finalChunks data |}];
       pendingMedia := pendingMedia c;
       mediaCalls := mediaCalls c ++ [RecorderStart i; RecorderStop i]
     |}.
Proof.
  intros Hcam Hst. cbv zeta.
  assert (H1 : startRecording c = {|
            isRecording := true;
            isCameraActive := true;
            recordedChunks := recordedChunks c;
            cameraError := cameraError c;
            mediaRecorderRef := Some (length (recorders c));
            streamRef := Some stream;
            recorders := recorders c
                         ++ [{| recording := true; stopQueued := false;
                                chunks := [] |}];
            pendingMedia := pendingMedia c;
            mediaCalls := mediaCalls c ++ [RecorderStart (length (recorders c))]
          |}).
  { unfold startRecording, canvasRef. rewrite Hst, Hcam. reflexivity. }
  rewrite H1.
  assert (H2 : stopRecording {|
            isRecording := true;
            isCameraActive := true;
            recordedChunks := recordedChunks c;
            cameraError := cameraError c;
            mediaRecorderRef := Some (length (recorders c));
            streamRef := Some stream;
            recorders := recorders c
                         ++ [{| recording := true; stopQueued := false;
                                chunks := [] |}];
            pendingMedia := pendingMedia c;
            mediaCalls := mediaCalls c ++ [RecorderStart (length (recorders c))]
          |} = {|
            isRecording := false;
            isCameraActive := true;
            recordedChunks := recordedChunks c;
            cameraError := cameraError c;
            mediaRecorderRef := Some (length (recorders c));
            streamRef := Some stream;
            recorders := recorders c
                         ++ [{| recording := false; stopQueued := true;
                                chunks := [] |}];
            pendingMedia := pendingMedia c;
            mediaCalls := mediaCalls c
                          ++ [RecorderStart (length (recorders c));
                              RecorderStop (length (recorders c))]
          |}).
  { unfold stopRecording.
    cbn [mediaRecorderRef isRecording isCameraActive recordedChunks
         cameraError streamRef recorders pendingMedia mediaCalls].
    rewrite update_nth_snoc, <- app_assoc. reflexivity. }
  rewrite H2.
  split; [reflexivity |]. split; [reflexivity |]. split; [reflexivity |].
  split; [reflexivity |].
  split; [cbn [recorders]; apply nth_error_snoc |].
  unfold recorder_stop_task. cbn [recorders].
  rewrite nth_error_snoc, update_nth_snoc.
  unfold ondataavailable, finalChunks. cbn [chunks size].
  destruct (0 <? size data)%nat; reflexivity.
Qed.

(** X15.  From a reachable state with the camera up, tracking on and no
    recording running: Start Recording, Stop Recording and the recorder's
    stop task leave [recordedChunks] equal to the final data alone (empty
    when its size is 0), replacing whatever was there, with one start and
    one stop of the new recorder and the tracking state untouched; a click
    on Download then passes exactly that data to one download and empties
    the buffer, a further click does nothing, and with no data there is
    nothing to download. *)
Theorem record_and_export_round_trip {num : Type} `{JSNumber num}
  (s : State num) (data : Blob) :
  reachable s ->
  isCameraActive (capture s) = true ->
  isTracking (tracking s) = true ->
  isRecording (capture s) = false ->
  let i := length (recorders (capture s)) in
  let recorded :=
    run s [ClickStartRecording; ClickStopRecording; RecorderStopped i data] in
  isRecording (capture (step s ClickStartRecording)) = true
  /\ isRecording (capture recorded) = false
  /\ isCameraActive (capture recorded) = true
  /\ recordedChunks (capture recorded) = finalChunks data
  /\ mediaCalls (capture recorded)
     = mediaCalls (capture s) ++ [RecorderStart i; RecorderStop i]
  /\ tracking recorded = tracking s
  /\ ((0 < size data)%nat ->
      recordedChunks (capture (step recorded ClickDownload)) = []
      /\ mediaCalls (capture (step recorded ClickDownload))
         = mediaCalls (capture s)
           ++ [RecorderStart i; RecorderStop i; DownloadFile [data]]
      /\ step (step recorded ClickDownload) ClickDownload
         = step recorded ClickDownload)
  /\ (size data = 0%nat -> step recorded ClickDownload = recorded).
Proof.
  intros Hs Hcam Htr Hrec. cbv zeta.
  destruct (reachable_camera_consistent s Hs) as [Hiff _].
  destruct (streamRef (capture s)) as [stream |] eqn:Hst;
    [| exfalso; apply (proj1 Hiff Hcam); reflexivity].
  destruct (record_cycle (capture s) stream data Hcam Hst)
    as (Hr1 & Hc1 & Hr2 & Hc2 & Hnth & Hc3).
  cbv zeta in Hr1, Hc1, Hr2, Hc2, Hnth, Hc3.
  set (i := length (recorders (capture s))) in *.
  assert (E1 : step s ClickStartRecording
               = with_capture s (startRecording (capture s))).
  { unfold step, enabled. rewrite Hcam, Hrec, Htr. reflexivity. }
  assert (E2 : step (with_capture s (startRecording (capture s)))
                 ClickStopRecording
               = with_capture s (stopRecording (startRecording (capture s)))).
  { unfold step, enabled. cbn [capture with_capture tracking].
    rewrite Hc1, Hr1. reflexivity. }
  assert (E3 : step (with_capture s
                       (stopRecording (startRecording (capture s))))
                 (RecorderStopped i data)
               = with_capture s
                   (recorder_stop_task
                      (stopRecording (startRecording (capture s))) i data)).
  { unfold step, enabled. cbn [capture with_capture tracking].
    rewrite Hnth. reflexivity. }
  assert (Erun : run s [ClickStartRecording; ClickStopRecording;
                        RecorderStopped i data]
                 = with_capture s
                     (recorder_stop_task
                        (stopRecording (startRecording (capture s))) i data)).
  { cbn [run fold_left]. rewrite E1, E2, E3. reflexivity. }
  rewrite Erun, E1, Hc3.
  cbn [capture with_capture tracking isRecording isCameraActive
       recordedChunks mediaCalls].
  split; [exact Hr1 |].
  split; [reflexivity |]. split; [reflexivity |]. split; [reflexivity |].
  split; [reflexivity |]. split; [reflexivity |].
  unfold step, enabled, finalChunks.
  cbn [capture with_capture tracking isCameraActive recordedChunks andb].
  split.
  - intros Hpos. apply Nat.ltb_lt in Hpos. rewrite Hpos.
    cbn [handle with_capture capture downloadVideo recordedChunks mediaCalls
         isCameraActive tracking displayUnit andb].
    split; [reflexivity |]. split; [rewrite <- app_assoc; reflexivity |].
    reflexivity.
  - intros Hzero. rewrite Hzero. reflexivity.
Qed.

Lemma record_and_export_round_trip_witness :
  let s := run (initialState true)
             [ClickStartTracking; ClickStartCamera;
              MediaGranted camera_stream] in
  let recorded :=
    run s [ClickStartRecording; ClickStopRecording;
           RecorderStopped (length (recorders (capture s))) {| size := 7 |}] in
  recordedChunks (capture recorded) = [{| size := 7 |}].
Proof.
  cbv zeta.
  apply (proj1 (proj2 (proj2 (proj2
           (record_and_export_round_trip
              (run (initialState true)
                 [ClickStartTracking; ClickStartCamera;
                  MediaGranted camera_stream])
              {| size := 7 |}
              (reachable_run _ _ (reachable_initial true))
              eq_refl eq_refl eq_refl))))).
Defined.

(** X16.  The cleanup on unmount, run in any reachable state, leaves no
    watch registered and stops the tracks of the held stream, if any; it
    resets neither ref and never stops the recorder: one that is recording
    is still recording afterwards. *)
Theorem unmount_cleanup {num : Type} `{JSNumber num}
  (supported : bool) (events : list (Event num)) :
  let s := run (initialState supported) events in
  watches (tracking (unmount s)) = []
  /\ watchIdRef (tracking (unmount s)) = watchIdRef (tracking s)
  /\ mediaCalls (capture (unmount s))
     = mediaCalls (capture s)
       ++ match streamRef (capture s) with
          | Some stream => map TrackStop (getTracks stream)
          | None => []
          end
  /\ streamRef (capture (unmount s)) = streamRef (capture s)
  /\ recorders (capture (unmount s)) = recorders (capture s)
  /\ (isRecording (capture s) = true ->
      exists i r, mediaRecorderRef (capture (unmount s)) = Some i
                  /\ nth_error (recorders (capture (unmount s))) i = Some r
                  /\ recording r = true)
  /\ (isCameraActive (capture s) = false ->
      mediaCalls (capture (unmount s)) = mediaCalls (capture s)).
Proof.
  cbv zeta.
  assert (Hr : reachable (run (initialState supported) events))
    by (apply reachable_run; constructor).
  set (s := run (initialState supported) events) in *.
  destruct (reachable_idle_consistent s Hr) as [Hwatch _].
  destruct (reachable_camera_consistent s Hr) as [Hcam _].
  pose proof (reachable_recording_consistent s Hr) as Hrec.
  split.
  { cbn [unmount tracking watches]. rewrite Hwatch.
    destruct (watchIdRef (tracking s)) as [id |]; [| reflexivity].
    unfold clearWatch. simpl. rewrite Nat.eqb_refl. reflexivity. }
  split; [reflexivity |].
  split.
  { cbn [unmount capture mediaCalls].
    destruct (streamRef (capture s)); [reflexivity |].
    rewrite app_nil_r. reflexivity. }
  split; [reflexivity |]. split; [reflexivity |].
  split.
  { intros Hon. destruct (Hrec Hon) as [_ [_ [i [r [Href [Hnth [Hrc _]]]]]]].
    exists i, r. repeat split; assumption. }
  intros Hoff. cbn [unmount capture mediaCalls].
  destruct (streamRef (capture s)) eqn:Hst; [| reflexivity].
  exfalso. assert (Hon : isCameraActive (capture s) = true)
    by (apply Hcam; discriminate).
  congruence.
Qed.

Lemma unmount_cleanup_witness :
  let s := run (initialState true)
             [ClickStartTracking; ClickStartCamera;
              MediaGranted camera_stream; ClickStartRecording] in
  exists i r, mediaRecorderRef (capture (unmount s)) = Some i
              /\ nth_error (recorders (capture (unmount s))) i = Some r
              /\ recording r = true.
Proof.
  cbv zeta.
  apply (proj1 (proj2 (proj2 (proj2 (proj2 (proj2
           (unmount_cleanup true
              [ClickStartTracking; ClickStartCamera;
               MediaGranted camera_stream; ClickStartRecording]))))))).
  reflexivity.
Defined.

(** ** The error card *)

(** X17.  In every reachable state the error card shows the location
    error whenever one is stored and the camera error only otherwise; what
    it shows is one of the six messages of the code. *)
Theorem displayed_error_prefers_location {num : Type} `{JSNumber num}
  (supported : bool)
  (events : list (Event num)) :
  let s := run (initialState supported) events in
  displayedError s
  = match error (tracking s) with
    | Some message => Some message
    | None => cameraError (capture s)
    end
  /\ (forall message, displayedError s = Some message ->
        In message
           ("Camera access denied or not available"%string :: trackingMessages))
  /\ (error (tracking s) <> None -> displayedError s = error (tracking s)).
Proof.
  cbv zeta.
  assert (Hr : reachable (run (initialState supported) events))
    by (apply reachable_run; constructor).
  set (s := run (initialState supported) events) in *.
  destruct (reachable_session_consistent s Hr)
    as (_ & _ & _ & _ & He).
  destruct (reachable_camera_consistent s Hr) as [_ [_ Hc]].
  assert (Hshown : displayedError s
                   = match error (tracking s) with
                     | Some message => Some message
                     | None => cameraError (capture s)
                     end).
  { unfold displayedError.
    destruct (error (tracking s)) as [message |] eqn:Herr; [| reflexivity].
    specialize (He message eq_refl). unfold trackingMessages in He.
    simpl in He.
    destruct He as [<- | [<- | [<- | [<- | [<- | []]]]]]; reflexivity. }
  split; [exact Hshown |]. split.
  - intros message Hm. rewrite Hshown in Hm.
    destruct (error (tracking s)) as [m |] eqn:Herr.
    + injection Hm as <-. right. apply He. reflexivity.
    + left. symmetry. apply Hc. exact Hm.
  - intros Hsome. rewrite Hshown.
    destruct (error (tracking s)); [reflexivity | congruence].
Qed.

Lemma displayed_error_prefers_location_witness :
  displayedError (run (initialState false)
                    [ClickStartTracking; ClickStartCamera])
  = Some "Geolocation is not supported by this browser"%string.
Proof.
  apply (proj2 (proj2 (displayed_error_prefers_location false
                         [ClickStartTracking; ClickStartCamera]))).
  intros H. discriminate H.
Defined.

(** ** The camera view and the tracking controls *)

Lemma step_camera_view_isTracking {num : Type} `{JSNumber num}
  (s : State num) (e : Event num) :
  isCameraActive (capture s) = true ->
  isTracking (tracking (step s e)) = isTracking (tracking s).
Proof.
  intros Hcam. unfold step, enabled. rewrite Hcam.
  destruct e; cbn [negb andb]; try reflexivity;
    match goal with
    | |- context [if ?b then _ else _] => destruct b; reflexivity
    end.
Qed.

Lemma step_camera_view_stays {num : Type} `{JSNumber num}
  (s : State num) (e : Event num) :
  isCameraActive (capture s) = true ->
  isTracking (tracking s) = false ->
  isRecording (capture s) = false ->
  e <> ClickStopCamera ->
  isCameraActive (capture (step s e)) = true
  /\ isRecording (capture (step s e)) = false.
Proof.
  intros Hcam Htr Hrec Hne. unfold step, enabled. rewrite Hcam, Htr, Hrec.
  destruct e; cbn [negb andb]; try (split; assumption);
    try congruence.
  - destruct (recordedChunks (capture s)) eqn:Hch; [split; assumption |].
    cbn [handle with_capture capture]. unfold downloadVideo.
    rewrite Hch. cbn. split; assumption.
  - destruct (existsb _ _); cbn; split; assumption.
  - destruct (existsb _ _); cbn; split; assumption.
  - destruct (0 <? pendingMedia (capture s))%nat; cbn;
      split; first [assumption | reflexivity].
  - destruct (0 <? pendingMedia (capture s))%nat; cbn; split; assumption.
  - destruct (nth_error (recorders (capture s)) recorder) as [r |] eqn:Hnth;
      [| split; assumption].
    destruct (stopQueued r); [| split; assumption].
    cbn [handle with_capture capture]. unfold recorder_stop_task.
    rewrite Hnth. cbn. split; assumption.
Qed.

(** X18.  No event changes [isTracking] while the camera view is up (the
    tracking controls are in the main view only).  The camera view comes
    up without tracking only through a [getUserMedia] request that
    resolves after Stop Tracking: every other event keeps "camera active
    implies tracking".  From such a state no sequence of events without a
    click on Stop Camera starts a recording or resumes tracking; and such
    a state is reachable. *)
Theorem camera_view_freezes_tracking {num : Type} `{JSNumber num} :
  (forall (s : State num) (e : Event num),
     isCameraActive (capture s) = true ->
     isTracking (tracking (step s e)) = isTracking (tracking s))
  /\ (forall (s : State num) (e : Event num),
        (isCameraActive (capture s) = true ->
         isTracking (tracking s) = true) ->
        (forall stream, e = MediaGranted stream ->
                        isTracking (tracking s) = true) ->
        isCameraActive (capture (step s e)) = true ->
        isTracking (tracking (step s e)) = true)
  /\ (forall (s : State num) (events : list (Event num)),
        isCameraActive (capture s) = true ->
        isTracking (tracking s) = false ->
        isRecording (capture s) = false ->
        (forall e, In e events -> e <> ClickStopCamera) ->
        isCameraActive (capture (run s events)) = true
        /\ isTracking (tracking (run s events)) = false
        /\ isRecording (capture (run s events)) = false)
  /\ (exists events : list (Event num),
        let s := run (initialState true) events in
        isCameraActive (capture s) = true
        /\ isTracking (tracking s) = false
        /\ isRecording (capture s) = false).
Proof.
  split; [exact step_camera_view_isTracking |]. split; [| split].
  - intros s e Hinv Hgrant.
    destruct (isCameraActive (capture s)) eqn:Hcam.
    + intros _. rewrite (step_camera_view_isTracking s e Hcam).
      apply Hinv. reflexivity.
    + unfold step, enabled. rewrite Hcam.
      destruct e; cbn [negb andb];
        try (intros Hq; cbn in Hq; congruence);
        try (match goal with
             | |- context [if ?b then _ else _] => destruct b
             end; cbn; intros Hq; congruence).
      * intros _.
        destruct (0 <? pendingMedia (capture s))%nat; cbn;
          apply (Hgrant stream); reflexivity.
      * destruct (nth_error (recorders (capture s)) recorder) as [r |] eqn:Hnth;
          [| intros Hq; congruence].
        destruct (stopQueued r); [| intros Hq; congruence].
        cbn [handle with_capture capture tracking].
        unfold recorder_stop_task. rewrite Hnth. cbn. intros Hq. congruence.
  - intros s events. revert s.
    induction events as [| e rest IH]; intros s Hcam Htr Hrec Hno.
    + repeat split; assumption.
    + cbn [run fold_left].
      assert (Hne : e <> ClickStopCamera) by (apply Hno; left; reflexivity).
      destruct (step_camera_view_stays s e Hcam Htr Hrec Hne) as [Hc Hr].
      apply IH; [exact Hc | | exact Hr |].
      * rewrite (step_camera_view_isTracking s e Hcam). exact Htr.
      * intros e' He'. apply Hno. right. exact He'.
  - exists [ClickStartTracking; ClickStartCamera; ClickStopTracking;
            MediaGranted camera_stream].
    cbv zeta. repeat split.
Qed.

Lemma camera_view_freezes_tracking_witness :
  isCameraActive
    (capture (run (run (initialState true)
                     [ClickStartTracking; ClickStartCamera; ClickStopTracking;
                      MediaGranted camera_stream])
                [ClickStartRecording; WatchPosition 0 fix_10mps;
                 ClickDownload])) = true
  /\ isRecording
       (capture (run (run (initialState true)
                        [ClickStartTracking; ClickStartCamera;
                         ClickStopTracking; MediaGranted camera_stream])
                   [ClickStartRecording; WatchPosition 0 fix_10mps;
                    ClickDownload])) = false.
Proof.
  destruct (proj1 (proj2 (proj2 camera_view_freezes_tracking))
              (run (initialState true)
                 [ClickStartTracking; ClickStartCamera; ClickStopTracking;
                  MediaGranted camera_stream])
              [ClickStartRecording; WatchPosition 0 fix_10mps; ClickDownload])
    as (Hc & _ & Hr); try reflexivity.
  - intros e [<- | [<- | [<- | []]]]; discriminate.
  - split; assumption.
Defined.

(** ** The camera's streams *)

Lemma step_ClickStartCamera {num : Type} `{JSNumber num} (s : State num) :
  isCameraActive (capture s) = false ->
  isTracking (tracking s) = true ->
  step s ClickStartCamera = with_capture s (startCamera (capture s)).
Proof.
  intros Hcam Htr. unfold step, enabled. rewrite Hcam, Htr. reflexivity.
Qed.

Lemma step_MediaGranted {num : Type} `{JSNumber num}
  (s : State num) (stream : MediaStream) :
  (0 < pendingMedia (capture s))%nat ->
  step s (MediaGranted stream)
  = with_capture s (startCamera_resolved (capture s) stream).
Proof.
  intros Hp. unfold step, enabled.
  apply Nat.ltb_lt in Hp. rewrite Hp. reflexivity.
Qed.

Lemma step_MediaDenied {num : Type} `{JSNumber num} (s : State num) :
  (0 < pendingMedia (capture s))%nat ->
  step s MediaDenied = with_capture s (startCamera_rejected (capture s)).
Proof.
  intros Hp. unfold step, enabled.
  apply Nat.ltb_lt in Hp. rewrite Hp. reflexivity.
Qed.

Lemma step_ClickStopCamera {num : Type} `{JSNumber num} (s : State num) :
  isCameraActive (capture s) = true ->
  step s ClickStopCamera = with_capture s (stopCamera (capture s)).
Proof.
  intros Hcam. unfold step, enabled. rewrite Hcam. reflexivity.
Qed.

(** X19.  From a reachable state with tracking on, the camera off and no
    request in flight: Start Camera, a granted stream and Stop Camera make
    one [getUserMedia] call and stop each track of that stream, in order,
    and end with no stream held, the camera off and no camera error; a
    denied request leaves the camera off with the camera error set, which
    the next Start Camera clears; after two clicks on Start Camera before
    either request resolves, the second stream replaces the first, and
    Stop Camera stops the tracks of the second stream only. *)
Theorem camera_streams_released {num : Type} `{JSNumber num} (s : State num) :
  reachable s ->
  isCameraActive (capture s) = false ->
  isTracking (tracking s) = true ->
  pendingMedia (capture s) = 0%nat ->
  (forall stream,
     let s' := run s [ClickStartCamera; MediaGranted stream; ClickStopCamera] in
     mediaCalls (capture s')
     = mediaCalls (capture s)
       ++ GetUserMedia :: map TrackStop (getTracks stream)
     /\ streamRef (capture s') = None
     /\ isCameraActive (capture s') = false
     /\ isRecording (capture s') = false
     /\ cameraError (capture s') = None
     /\ pendingMedia (capture s') = 0%nat
     /\ tracking s' = tracking s)
  /\ (let s' := run s [ClickStartCamera; MediaDenied] in
      isCameraActive (capture s') = false
      /\ streamRef (capture s') = None
      /\ cameraError (capture s')
         = Some "Camera access denied or not available"%string
      /\ mediaCalls (capture s') = mediaCalls (capture s) ++ [GetUserMedia]
      /\ cameraError (capture (step s' ClickStartCamera)) = None)
  /\ (forall first second,
        let s' := run s [ClickStartCamera; ClickStartCamera;
                         MediaGranted first; MediaGranted second;
                         ClickStopCamera] in
        mediaCalls (capture s')
        = mediaCalls (capture s)
          ++ [GetUserMedia; GetUserMedia]
          ++ map TrackStop (getTracks second)
        /\ streamRef (capture s') = None
        /\ isCameraActive (capture s') = false).
Proof.
  intros Hs Hcam Htr Hpend.
  destruct (reachable_camera_consistent s Hs) as [Hiff _].
  pose proof (reachable_recording_consistent s Hs) as Hrc.
  assert (Hrec : isRecording (capture s) = false).
  { destruct (isRecording (capture s)) eqn:Hrec; [| reflexivity].
    destruct (Hrc Hrec) as [Hc _]. congruence. }
  assert (Hst : streamRef (capture s) = None).
  { destruct (streamRef (capture s)) eqn:Hst; [| reflexivity].
    assert (isCameraActive (capture s) = true)
      by (apply Hiff; discriminate).
    congruence. }
  split; [| split].
  - intros stream. cbv zeta. cbn [run fold_left].
    rewrite (step_ClickStartCamera s Hcam Htr).
    rewrite step_MediaGranted by (cbn; lia).
    rewrite step_ClickStopCamera by reflexivity.
    cbn [capture with_capture tracking]. unfold stopCamera.
    cbn [isRecording startCamera_resolved startCamera].
    rewrite Hrec. cbn. rewrite Hpend, <- app_assoc. repeat split.
  - cbv zeta. cbn [run fold_left].
    rewrite (step_ClickStartCamera s Hcam Htr).
    rewrite step_MediaDenied by (cbn; lia).
    rewrite step_ClickStartCamera by (cbn; assumption).
    cbn. repeat split; assumption.
  - intros first second. cbv zeta. cbn [run fold_left].
    rewrite (step_ClickStartCamera s Hcam Htr).
    rewrite step_ClickStartCamera by (cbn; assumption).
    rewrite step_MediaGranted by (cbn; lia).
    rewrite step_MediaGranted by (cbn; lia).
    rewrite step_ClickStopCamera by reflexivity.
    cbn [capture with_capture tracking]. unfold stopCamera.
    cbn [isRecording startCamera_resolved startCamera].
    rewrite Hrec. cbn. rewrite <- !app_assoc. repeat split.
Qed.

Lemma camera_streams_released_witness :
  mediaCalls
    (capture (run (run (initialState true) [ClickStartTracking])
                [ClickStartCamera; ClickStartCamera;
                 MediaGranted camera_stream;
                 MediaGranted {| getTracks :=
                                   [ {| track_id := 2;
                                        track_kind := VideoTrack |} ] |};
                 ClickStopCamera]))
  = [GetUserMedia; GetUserMedia;
     TrackStop {| track_id := 2; track_kind := VideoTrack |}].
Proof.
  assert (Hs : reachable (run (initialState true) [ClickStartTracking]))
    by (apply reachable_run; constructor).
  exact (proj1 (proj2 (proj2
           (camera_streams_released
              (run (initialState true) [ClickStartTracking])
              Hs eq_refl eq_refl eq_refl))
           camera_stream
           {| getTracks := [ {| track_id := 2; track_kind := VideoTrack |} ] |})).
Defined.

(** ** What is shown in a reachable state *)

Lemma displaySpeed_not_negative_binary64 (m : MathLibrary) (u : Unit)
  (v : float) :
  PrimFloat.ltb v 0 = false ->
  PrimFloat.ltb (displaySpeed (H := binary64_js m) u v) 0 = false.
Proof.
  intros Hv. destruct u; [exact Hv |].
  cbn [displaySpeed num_mul num_literal binary64_js js_arith binary64_number].
  apply not_negative_mul; [exact Hv | reflexivity].
Qed.

(** X12.  In every state the component reaches, in binary64 with any
    implementation of the [Math] functions: the dial percentage is NaN
    when the speed is NaN and within [0, 100] otherwise; the displayed
    maximum is never negative (NaN or at least 0); while idle the
    percentage is 0 and the needle at -90 degrees.  The NaN case is
    reached: after the two antipodal fixes the percentage is NaN. *)
Theorem display_in_reachable_states :
  (forall (m : MathLibrary) (supported : bool) (events : list (Event float)),
     let s := run (H := binary64_js m)
                (initialState (H := binary64_js m) supported) events in
     let percentage :=
       speedPercentage (H := binary64_js m) (displayUnit s)
         (speed (tracking s)) in
     (PrimFloat.is_nan (speed (tracking s)) = true ->
      percentage = PrimFloat.nan)
     /\ (PrimFloat.is_nan (speed (tracking s)) = false ->
         PrimFloat.leb 0 percentage = true
         /\ PrimFloat.leb percentage 100 = true)
     /\ PrimFloat.ltb
          (displaySpeed (H := binary64_js m) (displayUnit s)
             (maxSpeed (tracking s))) 0 = false
     /\ (isTracking (tracking s) = false ->
         percentage = 0%float
         /\ needleRotation (H := binary64_js m) percentage = (-90)%float))
  /\ (let s := run (H := excerpt_js) (initialState (H := excerpt_js) true)
                 [ClickStartTracking;
                  WatchPosition 0 antipode_fix_a;
                  WatchPosition 0 antipode_fix_b] in
      speedPercentage (H := excerpt_js) (displayUnit s) (speed (tracking s))
      = PrimFloat.nan).
Proof.
  split; [| vm_compute; reflexivity].
  intros m supported events. cbv zeta.
  assert (Hr : reachable (H := binary64_js m)
                 (run (H := binary64_js m)
                    (initialState (H := binary64_js m) supported) events))
    by (apply reachable_run; constructor).
  set (s := run (H := binary64_js m)
              (initialState (H := binary64_js m) supported) events) in *.
  destruct (reachable_never_negative64 m s Hr) as (Hsp & Hmax & _).
  destruct (reachable_idle_consistent (H := binary64_js m) s Hr)
    as [_ Hidle].
  split.
  { intros Hnan. apply is_nan_eq in Hnan. rewrite Hnan.
    apply speedPercentage_nan_binary64. }
  split.
  { intros Hnot. apply speedPercentage_range_binary64.
    destruct (proj1 (not_negative_cases _) Hsp) as [Hn | Hge];
      [congruence | exact Hge]. }
  split; [apply displaySpeed_not_negative_binary64; exact Hmax |].
  intros Hoff. destruct (Hidle Hoff) as [_ [Hzero _]].
  rewrite Hzero. destruct (displayUnit s); split; vm_compute; reflexivity.
Qed.

Lemma display_in_reachable_states_witness :
  let s := run (H := excerpt_js) (initialState (H := excerpt_js) true)
             [ClickStartTracking; WatchPosition 0 antipode_fix_10mps] in
  PrimFloat.leb 0 (speedPercentage (H := excerpt_js) (displayUnit s)
                     (speed (tracking s))) = true
  /\ PrimFloat.leb (speedPercentage (H := excerpt_js) (displayUnit s)
                      (speed (tracking s))) 100 = true.
Proof.
  apply (proj1 (proj2 (proj1 display_in_reachable_states Math_excerpt true
                         [ClickStartTracking;
                          WatchPosition 0 antipode_fix_10mps]))).
  vm_compute. reflexivity.
Defined.
